(** * Incremental documentation pipelines: affected-set resolution and the
      full-stack orchestrator

    A shallow embedding of [pipelines/2-git-driven/pipeline.py]
    ([GitDrivenDocPipeline]) and [pipelines/6-full-stack/pipeline.py]
    ([FullStackDocPipeline]), with the properties of the design document
    stated against them.

    Conventions.
    - Python [str] is [string]; [set] is [gset string]; [dict] is [gmap];
      a Python [list] is a [list].
    - Iterating a Python [set] visits its elements in some order; the model
      iterates [elements s].  Iterating a directory tree ([rglob]) visits the
      files in some order; the model iterates [map_to_list] of the tree.
    - Code that reads and writes the output directory and may raise is a
      computation over an explicit state whose outcome is [Returned] or
      [Raised]; an exception caught inside a function is the [inl] of a sum.
    - Wall-clock fields and the text of generated pages are left out. *)

From Stdlib Require Import Ascii String List Bool Arith Lia.
From stdpp Require Import base option list gmap fin_sets fin_maps strings sorting.

Local Open Scope string_scope.
Local Open Scope list_scope.

#[local] Set Warnings "-clear-no-such-hyp".

(** [String.append] unfolds under [simpl] when its first argument starts
    with a constructor. *)
#[local] Arguments String.append !_ _ / : simpl nomatch.

(** ** Python string operations used by both pipelines *)

Module PyStr.

(** [s.endswith(suf)]. *)
Definition endswith (s suf : string) : bool :=
  let n := String.length s in
  let k := String.length suf in
  if Nat.leb k n then String.eqb (String.substring (n - k) k s) suf else false.

(** [p in s] on strings: [p] occurs in [s] as a contiguous substring. *)
Fixpoint contains (s p : string) : bool :=
  String.prefix p s ||
  match s with
  | EmptyString => false
  | String _ s' => contains s' p
  end.

(** [s.replace(old, new)] where [old] and [new] are single characters. *)
Fixpoint replace (old new : ascii) (s : string) : string :=
  match s with
  | EmptyString => EmptyString
  | String c s' =>
      String (if Ascii.eqb c old then new else c) (replace old new s')
  end.

(** Membership of a character in the character set [chars] of
    [s.rstrip(chars)]. *)
Fixpoint mem (c : ascii) (chars : string) : bool :=
  match chars with
  | EmptyString => false
  | String d chars' => Ascii.eqb c d || mem c chars'
  end.

(** [s.rstrip(chars)]: drops the longest suffix of [s] made only of
    characters that occur in [chars]. *)
Fixpoint rstrip (chars : string) (s : string) : string :=
  match s with
  | EmptyString => EmptyString
  | String c s' =>
      match rstrip chars s' with
      | EmptyString => if mem c chars then EmptyString else String c EmptyString
      | r => String c r
      end
  end.

(** [s.split(sep)] for a single-character separator. *)
Fixpoint split (sep : ascii) (s : string) : list string :=
  match s with
  | EmptyString => [EmptyString]
  | String c s' =>
      if Ascii.eqb c sep then EmptyString :: split sep s'
      else match split sep s' with
           | [] => [String c EmptyString]
           | w :: ws => String c w :: ws
           end
  end.

End PyStr.

(** ** Pipeline 2: git-driven change detection *)

Module GitDriven.

(** [self.dep_graph]: a [defaultdict(set)] from an imported module to the
    modules that import it. *)
Abbreviation Graph := (gmap string (gset string)).

(** [self.dep_graph.get(current, set())], in iteration order. *)
Definition dependents (g : Graph) (current : string) : list string :=
  elements (default (∅ : gset string) (g !! current)).

(** [f.replace(os.sep, '.').rstrip('.py')]: the module id of a path, as
    [build_dependency_graph] and [resolve_affected] both compute it. *)
Definition module_of (sep : ascii) (f : string) : string :=
  PyStr.rstrip ".py" (PyStr.replace sep "." f).

(** The module id the design document asks for: the root-relative path with
    the source suffix removed as a suffix (path-aware, as
    [Path.with_suffix('')] does) and the path separators replaced by the
    module separator.  It follows the document's words, for comparison with
    [module_of]. *)
Definition strip_suffix (suf s : string) : string :=
  if PyStr.endswith s suf
  then String.substring 0 (String.length s - String.length suf) s
  else s.

Definition artifact_id (sep : ascii) (f : string) : string :=
  PyStr.replace sep "." (strip_suffix ".py" f).

(** The first loop of [resolve_affected]: the module ids of the changed
    files that end in [.py]. *)
Definition changed_modules (sep : ascii) (changed_files : list string)
  : gset string :=
  fold_left
    (fun acc f => if PyStr.endswith f ".py" then {[module_of sep f]} ∪ acc else acc)
    changed_files ∅.

(** The three variables of the [while queue:] loop. *)
Record bfs := Bfs {
  affected : gset string;
  queue : list string;
  visited : gset string
}.

(** The inner [for dependent in ...] loop on the pair (affected, queue). *)
Definition enqueue (aq : gset string * list string) (dependent : string)
  : gset string * list string :=
  if decide (dependent ∈ aq.1) then aq
  else ({[dependent]} ∪ aq.1, aq.2 ++ [dependent]).

Definition expand (g : Graph) (current : string)
    (aq : gset string * list string) : gset string * list string :=
  fold_left enqueue (dependents g current) aq.

(** One iteration of [while queue:]; [None] when the queue is empty and the
    loop exits. *)
Definition step (g : Graph) (st : bfs) : option bfs :=
  match queue st with
  | [] => None
  | current :: rest =>
      if decide (current ∈ visited st) then
        Some (Bfs (affected st) rest (visited st))
      else
        let aq := expand g current (affected st, rest) in
        Some (Bfs aq.1 aq.2 ({[current]} ∪ visited st))
  end.

(** The loop, cut off after [fuel] iterations ([None]: cut off). *)
Fixpoint loop (fuel : nat) (g : Graph) (st : bfs) : option (gset string) :=
  match step g st with
  | None => Some (affected st)
  | Some st' =>
      match fuel with
      | O => None
      | S fuel' => loop fuel' g st'
      end
  end.

(** The nodes dequeued ([queue.pop(0)]) by the first [n] iterations. *)
Fixpoint dequeued (n : nat) (g : Graph) (st : bfs) : list string :=
  match n, queue st, step g st with
  | S n', current :: _, Some st' => current :: dequeued n' g st'
  | _, _, _ => []
  end.

(** The nodes expanded (past the [visited] check) by the first [n]
    iterations. *)
Fixpoint expanded (n : nat) (g : Graph) (st : bfs) : list string :=
  match n, queue st, step g st with
  | S n', current :: _, Some st' =>
      if decide (current ∈ visited st) then expanded n' g st'
      else current :: expanded n' g st'
  | _, _, _ => []
  end.

(** State on entry to the loop: [affected = set(changed_modules)],
    [queue = list(changed_modules)], [visited = set()]. *)
Definition init (changed : gset string) : bfs :=
  Bfs changed (elements changed) ∅.

(** Lines 75-89 of [resolve_affected], on the changed module ids. *)
Definition resolve_modules (fuel : nat) (g : Graph) (changed : gset string)
  : option (gset string) :=
  loop fuel g (init changed).

(** [resolve_affected(changed_files)]. *)
Definition resolve_affected (fuel : nat) (sep : ascii) (g : Graph)
    (changed_files : list string) : option (gset string) :=
  resolve_modules fuel g (changed_modules sep changed_files).

(** Every module that occurs as a dependent in the graph. *)
Definition all_dependents (g : Graph) : gset string :=
  ⋃ (List.map snd (map_to_list g)).

(** The size of what is left to do in a loop state: the queue entries, and
    the nodes that can still be enqueued. *)
Definition measure (g : Graph) (st : bfs) : nat :=
  length (queue st) + size (all_dependents g ∖ affected st).

(** Iterations that always suffice: one per initial queue entry and one per
    node that can still be enqueued. *)
Definition enough_fuel (g : Graph) (changed : gset string) : nat :=
  measure g (init changed).

(** Specification of the result: the changed modules and their direct and
    transitive dependents. *)
Inductive reach (g : Graph) (changed : gset string) : string → Prop :=
| reach_changed x : x ∈ changed → reach g changed x
| reach_dependent x d :
    reach g changed x → d ∈ dependents g x → reach g changed d.

(** Loop invariant for correctness: what is affected is reachable, what is
    visited has its dependents affected, what is affected is queued or
    visited, and what is queued is affected. *)
Record closing (g : Graph) (changed : gset string) (st : bfs) : Prop := {
  closing_seed : changed ⊆ affected st;
  closing_sound : ∀ x, x ∈ affected st → reach g changed x;
  closing_done : ∀ x d, x ∈ visited st → d ∈ dependents g x → d ∈ affected st;
  closing_todo : ∀ x, x ∈ affected st → x ∈ queue st ∨ x ∈ visited st;
  closing_queue : ∀ x, x ∈ queue st → x ∈ affected st
}.

(** Loop invariant for no revisit: the queue has no repeats, holds only
    affected nodes and none that was visited. *)
Record fresh_queue (st : bfs) : Prop := {
  fresh_nodup : NoDup (queue st);
  fresh_queued : ∀ x, x ∈ queue st → x ∈ affected st;
  fresh_visited : ∀ x, x ∈ visited st → x ∈ affected st ∧ x ∉ queue st
}.

(** The graph of two modules that import each other: [dep_graph[B]] holds
    [A] (A imports B) and [dep_graph[A]] holds [B] (B imports A). *)
Definition two_cycle (A B : string) : Graph :=
  <[A := {[B]}]> {[B := {[A]}]}.

(** [build_dependency_graph]: the state is ([dep_graph], [import_map]). *)
Section Build.

(** [os.sep]. *)
Variable sep : ascii.

(** [filepath.read_text(encoding='utf-8')]: [None] when it raises. *)
Variable read_text : string → option string.

(** The modules [import_pattern.finditer(source)] yields, each as
    [match.group(1) or match.group(2)], in order. *)
Variable find_imports : string → list string.

Definition add_import (module : string) (acc : Graph * Graph)
    (imported : string) : Graph * Graph :=
  (<[imported := {[module]} ∪ default ∅ (acc.1 !! imported)]> acc.1,
   <[module := {[imported]} ∪ default ∅ (acc.2 !! module)]> acc.2).

Definition scan_imports (acc : Graph * Graph) (f : string * string)
  : Graph * Graph :=
  let module := module_of sep f.1 in
  match read_text f.2 with
  | None => acc
  | Some source => fold_left (add_import module) (find_imports source) acc
  end.

(** The files of [self.repo_dir.rglob('*.py')], relative to [repo_dir]. *)
Definition py_files (tree : gmap string string) : list (string * string) :=
  List.filter
    (fun f => PyStr.endswith (List.last (PyStr.split sep f.1) EmptyString) ".py")
    (map_to_list tree).

Definition build_dependency_graph (tree : gmap string string) : Graph * Graph :=
  fold_left scan_imports (py_files tree) (∅, ∅).

End Build.

End GitDriven.

(** ** Pipeline 6: the full-stack orchestrator *)

Module FullStack.

(** [self.config]; [DEFAULT_CONFIG] below. *)
Record Config := {
  extensions : list string;
  ignore_patterns : list string;
  output_format : string
}.

Definition DEFAULT_CONFIG : Config := {|
  extensions := [".py"; ".js"; ".ts"; ".jsx"; ".tsx"; ".md"];
  ignore_patterns := [".git"; "node_modules"; "__pycache__"; ".venv"; "venv"];
  output_format := "html"
|}.

(** The entries of [items['functions']] and [items['classes']]. *)
Record Func := {
  func_name : string; func_args : list string; func_doc : string; func_line : nat
}.

Record Class := {
  class_name : string; class_doc : string; class_methods : list string;
  class_line : nat
}.

(** The [items] dict that [stage_code_analysis] builds per file. *)
Record Items := {
  module_doc : string;
  functions : list Func;
  classes : list Class;
  lines : nat
}.

(** An entry of [chunks] in [stage_rag_indexing]. *)
Record Chunk := {
  chunk_id : string; chunk_text : string; chunk_source : string;
  chunk_type : string
}.

Record LivingDocs := { features : nat; api_specs : nat; tests : nat }.

(** A [stage] dict: its name and its integer counters.  The wall-clock
    fields ([started], [elapsed]) are left out. *)
Record StageRecord := { stage_name : string; counters : list (string * nat) }.

(** The document [.doc-cache.json] as [json.loads] sees it: the dict from
    [str] to [str] it denotes, or a text that [json.loads] rejects (documents
    that parse to anything else are outside the model).  [json.dumps] of a dict
    from [str] to [str] followed by [json.loads] gives the dict back, which
    is what lets a written store be read as [Parsed]. *)
Inductive cache_doc :=
| Parsed (c : gmap string string)
| Unparsable.

#[global] Instance cache_doc_eq_dec : EqDecision cache_doc.
Proof. solve_decision. Defined.

(** [pipeline-report.json]. *)
Record Report := {
  rep_stages : list StageRecord;
  rep_errors : list string;
  rep_stats : list (string * nat)
}.

(** What a run reads and writes besides the project tree: the files of
    [self.output_dir] and the two lists of [self.report]. *)
Record State := {
  cache_file : option cache_doc;
  search_index : option (list Chunk);
  site : gset string;
  report_file : option Report;
  report_stages : list StageRecord;
  report_errors : list string
}.

Definition set_cache_file (d : cache_doc) (st : State) : State :=
  {| cache_file := Some d; search_index := search_index st; site := site st;
     report_file := report_file st; report_stages := report_stages st;
     report_errors := report_errors st |}.

Definition set_search_index (cs : list Chunk) (st : State) : State :=
  {| cache_file := cache_file st; search_index := Some cs; site := site st;
     report_file := report_file st; report_stages := report_stages st;
     report_errors := report_errors st |}.

Definition add_site_files (fs : list string) (st : State) : State :=
  {| cache_file := cache_file st; search_index := search_index st;
     site := list_to_set fs ∪ site st;
     report_file := report_file st; report_stages := report_stages st;
     report_errors := report_errors st |}.

Definition set_report_file (r : Report) (st : State) : State :=
  {| cache_file := cache_file st; search_index := search_index st;
     site := site st; report_file := Some r;
     report_stages := report_stages st; report_errors := report_errors st |}.

Definition append_stage (r : StageRecord) (st : State) : State :=
  {| cache_file := cache_file st; search_index := search_index st;
     site := site st; report_file := report_file st;
     report_stages := report_stages st ++ [r];
     report_errors := report_errors st |}.

Definition append_errors (es : list string) (st : State) : State :=
  {| cache_file := cache_file st; search_index := search_index st;
     site := site st; report_file := report_file st;
     report_stages := report_stages st;
     report_errors := report_errors st ++ es |}.

(** A fresh pipeline object over an output directory with no files. *)
Definition fresh : State :=
  {| cache_file := None; search_index := None; site := ∅;
     report_file := None; report_stages := []; report_errors := [] |}.

(** A new pipeline object ([__init__]) over the output directory a previous
    run left behind: the files stay, [self.report] starts empty. *)
Definition reopen (st : State) : State :=
  {| cache_file := cache_file st; search_index := search_index st;
     site := site st; report_file := report_file st;
     report_stages := []; report_errors := [] |}.

(** *** Computations that read and write the state and may raise *)

Inductive outcome (A : Type) :=
| Returned (a : A) (st : State)
| Raised (e : string) (st : State).
Arguments Returned {A} a st.
Arguments Raised {A} e st.

Definition M (A : Type) : Type := State → outcome A.

Definition ret {A} (a : A) : M A := fun st => Returned a st.

Definition bind {A B} (m : M A) (k : A → M B) : M B :=
  fun st =>
    match m st with
    | Returned a st' => k a st'
    | Raised e st' => Raised e st'
    end.

Definition raise {A} (e : string) : M A := fun st => Raised e st.
Definition get : M State := fun st => Returned st st.
Definition modify (f : State → State) : M unit := fun st => Returned tt (f st).

Notation "'let!' x ':=' m 'in' k" := (bind m (fun x => k))
  (at level 10, x name, m at level 100, k at level 200).

(** The state a computation leaves, returned or raised, and the value it
    returns. *)
Definition final_state {A} (o : outcome A) : State :=
  match o with Returned _ st => st | Raised _ st => st end.

Definition returned {A} (o : outcome A) : option A :=
  match o with Returned a _ => Some a | Raised _ _ => None end.

(** The project tree: the regular files under [self.project_dir], keyed by
    their path relative to it (as [str(filepath.relative_to(project_dir))]
    prints it), each with its content. *)
Abbreviation Tree := (gmap string string).

Section Stages.

(** [os.sep] and [str(self.project_dir)]. *)
Variable sep : ascii.
Variable project_dir : string.

(** [self.config]. *)
Variable config : Config.

(** [hashlib.md5(b).hexdigest()]. *)
Variable md5 : string → string.

(** The body of the [try] of [stage_code_analysis] on one file's content:
    [read_text], [ast.parse] and the walk that fills [items]; [inl e] when it
    raises an exception that prints as [e]. *)
Variable analyze : string → string + Items.

(** [len(re.findall(r'def\s+test_\w+', source))]. *)
Variable count_tests : string → nat.

(** [str(self.project_dir / rel)]. *)
Definition abspath (rel : string) : string :=
  String.append project_dir (String sep rel).

(** [path.name]: the last component. *)
Definition basename (rel : string) : string :=
  List.last (PyStr.split sep rel) EmptyString.

(** [_should_skip(filepath)], on [str(filepath)]. *)
Definition _should_skip (filepath : string) : bool :=
  existsb (fun p => PyStr.contains filepath p) (ignore_patterns config).

(** [self.project_dir.rglob('*' + ext)] for an [ext] without glob
    metacharacters: the files whose name ends in [ext]. *)
Definition rglob (tree : Tree) (ext : string) : list (string * string) :=
  List.filter (fun f => PyStr.endswith (basename f.1) ext) (map_to_list tree).

(** The files the two nested loops of [stage_change_detection] reach past the
    [_should_skip] test, in order. *)
Definition enumerate (tree : Tree) : list (string * string) :=
  flat_map
    (fun ext =>
       List.filter (fun f => negb (_should_skip (abspath f.1))) (rglob tree ext))
    (extensions config).

(** The loop body of [stage_change_detection] on (new_cache, changed_files). *)
Definition scan (old_cache : gmap string string)
    (acc : gmap string string * list string) (f : string * string)
  : gmap string string * list string :=
  let content_hash := md5 f.2 in
  (<[f.1 := content_hash]> acc.1,
   if decide (old_cache !! f.1 = Some content_hash) then acc.2
   else acc.2 ++ [f.1]).

(** [old_cache = {}; if cache_file.exists(): old_cache = json.loads(...)]. *)
Definition load_cache : M (gmap string string) :=
  let! st := get in
  match cache_file st with
  | None => ret ∅
  | Some (Parsed c) => ret c
  | Some Unparsable => raise "JSONDecodeError"
  end.

Definition stage_change_detection (tree : Tree) : M (list string) :=
  let! old_cache := load_cache in
  let r := fold_left (scan old_cache) (enumerate tree) (∅, []) in
  let new_cache := r.1 in
  let changed_files := r.2 in
  let! _ := modify (set_cache_file (Parsed new_cache)) in
  let! _ := modify (append_stage
    {| stage_name := "change_detection";
       counters := [("changed_files", length changed_files);
                    ("total_files", size new_cache)] |}) in
  ret changed_files.

(** The files [stage_code_analysis] loops over, as relative paths. *)
Definition py_files (tree : Tree) (files_to_analyze : option (list string))
  : list string :=
  match files_to_analyze with
  | Some (f :: fs) => List.filter (fun f => PyStr.endswith f ".py") (f :: fs)
  | _ => List.map fst (rglob tree ".py")
  end.

(** The loop body of [stage_code_analysis] on (analysis, new errors). *)
Definition analyze_file (tree : Tree)
    (acc : gmap string Items * list string) (rel : string)
  : gmap string Items * list string :=
  match tree !! rel with
  | None => acc
  | Some source =>
      if _should_skip (abspath rel) then acc
      else match analyze source with
           | inr items => (<[rel := items]> acc.1, acc.2)
           | inl e =>
               (acc.1,
                acc.2 ++ [String.append "Parse error in "
                            (String.append rel (String.append ": " e))])
           end
  end.

Definition sum_by {A} (f : A → nat) (l : list A) : nat :=
  fold_right (fun a n => f a + n) 0 l.

Definition stage_code_analysis (tree : Tree)
    (files_to_analyze : option (list string)) : M (gmap string Items) :=
  let r := fold_left (analyze_file tree) (py_files tree files_to_analyze) (∅, []) in
  let analysis := r.1 in
  let! _ := modify (append_errors r.2) in
  let values := List.map snd (map_to_list analysis) in
  let! _ := modify (append_stage
    {| stage_name := "code_analysis";
       counters := [("analyzed_files", size analysis);
                    ("total_functions", sum_by (fun a => length (functions a)) values);
                    ("total_classes", sum_by (fun a => length (classes a)) values)] |}) in
  ret analysis.

Definition nl : string := String (ascii_of_nat 10) EmptyString.

Definition nonempty (s : string) : bool :=
  match s with EmptyString => false | _ => true end.

(** The chunks [stage_rag_indexing] appends for one analysed file. *)
Definition chunks_of (f : string * Items) : list Chunk :=
  let filepath := f.1 in
  let items := f.2 in
  (if nonempty (module_doc items) then
     [{| chunk_id := md5 (String.append filepath ":module");
         chunk_text := module_doc items;
         chunk_source := filepath; chunk_type := "module_doc" |}]
   else [])
  ++ List.map
       (fun fn =>
          {| chunk_id := md5 (String.append filepath (String.append ":" (func_name fn)));
             chunk_text :=
               String.append "Function "
                 (String.append (func_name fn)
                    (String.append "("
                       (String.append (String.concat ", " (func_args fn))
                          (String.append ")"
                             (if nonempty (func_doc fn)
                              then String.append nl (func_doc fn)
                              else EmptyString)))));
             chunk_source := filepath; chunk_type := "function" |})
       (functions items)
  ++ List.map
       (fun c =>
          {| chunk_id := md5 (String.append filepath (String.append ":" (class_name c)));
             chunk_text :=
               String.append "Class "
                 (String.append (class_name c)
                    (String.append
                       (if nonempty (class_doc c)
                        then String.append nl (class_doc c) else EmptyString)
                       (String.append nl
                          (String.append "Methods: "
                             (String.concat ", " (class_methods c))))));
             chunk_source := filepath; chunk_type := "class" |})
       (classes items).

Definition stage_rag_indexing (analysis : gmap string Items) : M (list Chunk) :=
  let chunks := flat_map chunks_of (map_to_list analysis) in
  let! _ := modify (set_search_index chunks) in
  let! _ := modify (append_stage
    {| stage_name := "rag_indexing";
       counters := [("total_chunks", length chunks)] |}) in
  ret chunks.

(** The files whose name starts with [pre] and ends in [suf]:
    [rglob(pre + '*' + suf)]. *)
Definition rglob_name (tree : Tree) (pre suf : string) : list (string * string) :=
  List.filter
    (fun f => String.prefix pre (basename f.1) && PyStr.endswith (basename f.1) suf
              && Nat.leb (String.length pre + String.length suf)
                         (String.length (basename f.1)))
    (map_to_list tree).

Definition stage_living_docs (tree : Tree) : M LivingDocs :=
  let n_features := length (rglob tree ".feature") in
  let n_specs := length (rglob_name tree "openapi." EmptyString)
                 + length (rglob_name tree "swagger." EmptyString) in
  let test_files := rglob_name tree "test_" ".py" ++ rglob tree "_test.py" in
  let n_tests :=
    fold_left
      (fun n tf => if _should_skip (abspath tf.1) then n else n + count_tests tf.2)
      test_files 0 in
  let docs := {| features := n_features; api_specs := n_specs; tests := n_tests |} in
  let! _ := modify (append_stage
    {| stage_name := "living_docs";
       counters := [("features", n_features); ("api_specs", n_specs);
                    ("tests", n_tests)] |}) in
  ret docs.

(** [fp.replace(os.sep, '_').replace('.', '_')]. *)
Definition safe (fp : string) : string :=
  PyStr.replace "." "_" (PyStr.replace sep "_" fp).

(** The module pages [stage_site_generation] writes under [site/], one per
    key of [analysis]. *)
Definition module_pages (analysis : gmap string Items) : list string :=
  List.map (fun f => String.append (safe f.1) ".html") (map_to_list analysis).

(** [stage_site_generation]: the files it writes and the count it returns;
    the HTML text of a page is not modelled. *)
Definition stage_site_generation (analysis : gmap string Items)
    (chunks : list Chunk) (living_docs : LivingDocs) : M nat :=
  let! _ := modify (add_site_files ["style.css"]) in
  let! _ := modify (add_site_files ["index.html"]) in
  let! _ := modify (add_site_files (module_pages analysis)) in
  let pages := 1 + length (module_pages analysis) in
  let! _ := modify (append_stage
    {| stage_name := "site_generation"; counters := [("pages", pages)] |}) in
  ret pages.

(** The locals of [run] when it ends ([run] itself returns [None]). *)
Record RunLocals := {
  changed : list string;
  analysis : gmap string Items;
  chunks : list Chunk;
  living : LivingDocs;
  pages : nat
}.

(** [changed if changed else None]. *)
Definition or_none (changed : list string) : option (list string) :=
  match changed with [] => None | _ => Some changed end.

Definition write_report (l : RunLocals) : M unit :=
  let! st := get in
  modify (set_report_file
    {| rep_stages := report_stages st;
       rep_errors := report_errors st;
       rep_stats := [("files_analyzed", size (analysis l));
                     ("search_chunks", length (chunks l));
                     ("pages_generated", pages l);
                     ("errors", length (report_errors st))] |}).

Definition run (tree : Tree) : M RunLocals :=
  let! changed := stage_change_detection tree in
  let! analysis := stage_code_analysis tree (or_none changed) in
  let! chunks := stage_rag_indexing analysis in
  let! living := stage_living_docs tree in
  let! pages := stage_site_generation analysis chunks living in
  let l := {| changed := changed; analysis := analysis; chunks := chunks;
              living := living; pages := pages |} in
  let! _ := write_report l in
  ret l.

(** [run] stopped from outside (an interrupt) once its first [n] stage calls
    have returned. *)
Definition run_interrupted (n : nat) (tree : Tree) : M unit :=
  match n with
  | 0 => ret tt
  | 1 =>
      let! changed := stage_change_detection tree in ret tt
  | 2 =>
      let! changed := stage_change_detection tree in
      let! analysis := stage_code_analysis tree (or_none changed) in ret tt
  | 3 =>
      let! changed := stage_change_detection tree in
      let! analysis := stage_code_analysis tree (or_none changed) in
      let! chunks := stage_rag_indexing analysis in ret tt
  | 4 =>
      let! changed := stage_change_detection tree in
      let! analysis := stage_code_analysis tree (or_none changed) in
      let! chunks := stage_rag_indexing analysis in
      let! living := stage_living_docs tree in ret tt
  | _ =>
      let! changed := stage_change_detection tree in
      let! analysis := stage_code_analysis tree (or_none changed) in
      let! chunks := stage_rag_indexing analysis in
      let! living := stage_living_docs tree in
      let! pages := stage_site_generation analysis chunks living in ret tt
  end.

(** *** Names for what the stages compute *)

(** The path components of [str(filepath)]. *)
Definition components (filepath : string) : list string :=
  PyStr.split sep filepath.

(** The store [stage_change_detection] starts from. *)
Definition old_cache (st : State) : gmap string string :=
  match cache_file st with
  | Some (Parsed c) => c
  | _ => ∅
  end.

(** The pair (new_cache, changed_files) its loops end with. *)
Definition detect (tree : Tree) (old : gmap string string)
  : gmap string string * list string :=
  fold_left (scan old) (enumerate tree) (∅, []).

(** What the loop body of [stage_code_analysis] makes of one file: its
    [items] when the file exists, is not skipped and parses; its error
    message when the file exists, is not skipped and raises. *)
Definition parsed (tree : Tree) (rel : string) : option Items :=
  match tree !! rel with
  | Some source =>
      if _should_skip (abspath rel) then None
      else match analyze source with inr items => Some items | inl _ => None end
  | None => None
  end.

Definition parse_error (tree : Tree) (rel : string) : option string :=
  match tree !! rel with
  | Some source =>
      if _should_skip (abspath rel) then None
      else match analyze source with
           | inr _ => None
           | inl e =>
               Some (String.append "Parse error in "
                       (String.append rel (String.append ": " e)))
           end
  | None => None
  end.

(** The pair (analysis, new errors) the loop ends with. *)
Definition analysed (tree : Tree) (files_to_analyze : option (list string))
  : gmap string Items * list string :=
  fold_left (analyze_file tree)
    (py_files tree files_to_analyze) (∅, []).

End Stages.

End FullStack.

(** ** Concrete collaborators and trees for the worked runs *)

Module Demo.
Import FullStack.

(** The digest, the analyser and the test counter are parameters of the
    model.  The worked runs take the identity as digest (equal digests exactly
    for equal contents), an analyser that rejects one source text, and a
    counter that finds no test. *)
Definition digest (content : string) : string := content.

Definition no_items : Items :=
  {| module_doc := EmptyString; functions := []; classes := []; lines := 1 |}.

Definition parser (source : string) : string + Items :=
  if String.eqb source "def f(:" then inl "invalid syntax" else inr no_items.

Definition no_tests (source : string) : nat := 0.

(** A project with one module that parses. *)
Definition one_file : Tree := {[ "a.py" := "x = 1" ]}.

(** A project with a module that parses, one that does not, and a
    Markdown file. *)
Definition three_files : Tree :=
  {[ "good.py" := "x = 1"; "bad.py" := "def f(:"; "README.md" := "# doc" ]}.

(** A project with one Markdown file. *)
Definition docs_only : Tree := {[ "README.md" := "# doc" ]}.

(** The store a previous run over another tree left behind. *)
Definition previous_store : cache_doc := Parsed {[ "old.py" := "y = 2" ]}.

(** [run] with the worked collaborators, on a POSIX path below [/srv/app]. *)
Definition run (tree : Tree) : M RunLocals :=
  FullStack.run "/" "/srv/app" DEFAULT_CONFIG digest parser no_tests tree.

Definition run_interrupted (n : nat) (tree : Tree) : M unit :=
  FullStack.run_interrupted "/" "/srv/app" DEFAULT_CONFIG digest parser
    no_tests n tree.

(** A first run over an empty output directory, then a second run by a new
    pipeline object over what the first left. *)
Definition second_run (tree : Tree) : outcome RunLocals :=
  run tree (reopen (final_state (run tree fresh))).

(** An output directory whose store document does not parse. *)
Definition corrupt : State := set_cache_file Unparsable fresh.

(** An output directory that holds [previous_store]. *)
Definition earlier : State := set_cache_file previous_store fresh.

End Demo.

(** ** Pipeline 2: regenerating the documents *)

Module GitDrivenDocs.

(** [v in g.get(k, set())]: the graph [g] has the edge from [k] to [v]. *)
Definition edge (g : GitDriven.Graph) (k v : string) : Prop :=
  v ∈ default (∅ : gset string) (g !! k).

(** The file content [content] can be read and its text imports
    [imported]. *)
Definition text_imports (read_text : string → option string)
    (find_imports : string → list string) (content imported : string) : Prop :=
  ∃ source, read_text content = Some source ∧ imported ∈ find_imports source.

(** [sorted(affected_modules)]: ascending in the order of [str], which
    compares character codes left to right. *)
Definition sorted_modules (affected_modules : gset string) : list string :=
  merge_sort String.le (elements affected_modules).

(** The name of the document of a module, below [self.output_dir]:
    [module.replace('.', '_') + '.md']. *)
Definition out_name (module : string) : string :=
  String.append (PyStr.replace "." "_" module) ".md".

Section Regenerate.

(** The first of the two candidates of [regenerate_docs]
    ([mod_path.with_suffix('.py')], then [mod_path / '__init__.py']) that
    exists, if one does. *)
Variable first_existing : string → option string.

(** The body of the outer loop of [regenerate_docs], on the pair of
    [regenerated] and the output directory.  A document is kept as the
    module it documents and the source it was generated from; its text is
    not modelled. *)
Definition regenerate_one (acc : list string * gmap string (string * string))
    (module : string) : list string * gmap string (string * string) :=
  match first_existing module with
  | Some candidate =>
      (acc.1 ++ [module], <[out_name module := (module, candidate)]> acc.2)
  | None => acc
  end.

Definition regenerate_docs (affected_modules : gset string)
    (out : gmap string (string * string))
  : list string * gmap string (string * string) :=
  fold_left regenerate_one (sorted_modules affected_modules) ([], out).

End Regenerate.

End GitDrivenDocs.

(** ** Pipeline 6: what the site index links and what the report counts *)

Module FullStackSite.
Import FullStack.

(** The files linked from [index.html], in order:
    [for fp in sorted(analysis.keys())]. *)
Definition index_links (analysis : gmap string Items) : list string :=
  merge_sort String.le (List.map fst (map_to_list analysis)).

(** [stage[name]] for an integer counter of a stage record. *)
Definition counter (name : string) (r : StageRecord) : option nat :=
  snd <$> List.find (fun p => String.eqb p.1 name) (counters r).


(** 1 for an analysed file with a module docstring, 0 otherwise. *)
Definition has_module_doc (items : Items) : nat :=
  if nonempty (module_doc items) then 1 else 0.

End FullStackSite.

(** ** More collaborators and trees for the worked runs *)

Module Sample.
Import FullStack.

(** Every file decodes; the scanner knows two import lines. *)
Definition read_text (content : string) : option string := Some content.

Definition find_imports (source : string) : list string :=
  if String.eqb source "from a import x" then ["a"]
  else if String.eqb source "import b" then ["b"]
  else [].

(** [b] imports [a], [c] imports [b]. *)
Definition chain : gmap string string :=
  {[ "a.py" := "x = 1"; "b.py" := "from a import x"; "c.py" := "import b" ]}.

(** Modules with a source file: [a] and [pkg.util]. *)
Definition first_existing (module : string) : option string :=
  if String.eqb module "a" then Some "a.py"
  else if String.eqb module "pkg.util" then Some "pkg/util.py"
  else None.

(** An analysis result with a docstring, two functions and a class. *)
Definition documented : Items :=
  {| module_doc := "Tools.";
     functions :=
       [{| func_name := "load"; func_args := ["path"]; func_doc := EmptyString;
           func_line := 3 |};
        {| func_name := "save"; func_args := ["path"; "data"];
           func_doc := "Write."; func_line := 7 |}];
     classes :=
       [{| class_name := "Store"; class_doc := EmptyString;
           class_methods := ["get"]; class_line := 11 |}];
     lines := 20 |}.

(** A counter that finds one test in every file. *)
Definition one_test (source : string) : nat := 1.

(** A test file whose name matches both [test_*.py] and [*_test.py]. *)
Definition both_patterns : Tree := {[ "test_io_test.py" := "def test_a(): pass" ]}.

End Sample.

(** ** Pipeline 6 with reads and page writes that may raise *)

(** [FullStack] takes every read of a project file and every page write to
    succeed.  [FullStackIO] drops that: a path of the tree may be one that
    cannot be read, and a page may be one that cannot be written.  The
    stages are the same functions, with the exception leaving where the
    source has no [try] around the call and being caught where it has one.
    The two agree on runs where nothing of the kind raises
    ([FullStackIOFacts.run_agrees]). *)

Module FullStackIO.
Import FullStack.

(** An extension [ext] for which [rglob('*' + ext)] is a plain test on the
    end of the file name: [ext] has none of the characters [*], [?] and [[]
    that a glob pattern reads as wildcards, and no path separator. *)
Definition literal_extension (sep : ascii) (ext : string) : bool :=
  negb (PyStr.mem "*" ext || PyStr.mem "?" ext || PyStr.mem "[" ext
        || PyStr.mem sep ext).

(** A computation that leaves the store document as it finds it, whether it
    returns or raises. *)
Definition keeps_store {A} (m : M A) : Prop :=
  ∀ st, cache_file (final_state (m st)) = cache_file st.

Section Failing.

Variable sep : ascii.
Variable project_dir : string.
Variable config : Config.
Variable md5 : string → string.
Variable analyze : string → string + Items.
Variable count_tests : string → nat.

(** The tree now lists every path [rglob] can yield, regular file or not.
    [read_error rel] is the exception, printed, that reading the path [rel]
    raises ([read_bytes], [read_text]): the path is a directory, or a file
    that may not be read.  [None]: the read succeeds and gives the content the
    tree has for [rel]. *)
Variable read_error : string → option string.

(** The exception, printed, that [write_text] raises on the file [name] of
    [site/]: the name is longer than the file system takes, a directory has
    that name.  [None]: the write succeeds. *)
Variable write_error : string → option string.

(** *** Stage 1 *)

(** Lines 63-71 on the files past the [_should_skip] test: [read_bytes] is
    called outside any [try], so the first path that cannot be read ends
    both loops with its exception. *)
Fixpoint scan_all (old_cache : gmap string string)
    (fs : list (string * string)) (acc : gmap string string * list string)
  : string + gmap string string * list string :=
  match fs with
  | [] => inr acc
  | f :: fs' =>
      match read_error f.1 with
      | Some e => inl e
      | None => scan_all old_cache fs' (scan md5 old_cache acc f)
      end
  end.

(** Lines 55-71: the store is loaded and the files are enumerated and
    hashed. *)
Definition detect_changes (tree : Tree)
  : M (gmap string string * list string) :=
  let! old_cache := load_cache in
  match scan_all old_cache (enumerate sep project_dir config tree) (∅, []) with
  | inl e => raise e
  | inr r => ret r
  end.

(** Line 73: [cache_file.write_text(json.dumps(new_cache, indent=2))]. *)
Definition write_cache (new_cache : gmap string string) : M unit :=
  modify (set_cache_file (Parsed new_cache)).

(** Lines 75-80: the stage record is appended and the list returned. *)
Definition record_detection (r : gmap string string * list string)
  : M (list string) :=
  let! _ := modify (append_stage
    {| stage_name := "change_detection";
       counters := [("changed_files", length r.2);
                    ("total_files", size r.1)] |}) in
  ret r.2.

Definition stage_change_detection (tree : Tree) : M (list string) :=
  let! r := detect_changes tree in
  let! _ := write_cache r.1 in
  record_detection r.

(** [stage_change_detection] stopped from outside (an interrupt) between two
    of its statements: before line 73 is reached ([written = false]), or
    after line 73 has returned and before the stage record is appended
    ([written = true]). *)
Definition stopped_in_detection (written : bool) (tree : Tree) : M unit :=
  let! r := detect_changes tree in
  if written then write_cache r.1 else ret tt.

(** *** Stage 2 *)

(** The body of the [try] of lines 97-122 on the file at [rel]:
    [read_text], then the parse and the walk. *)
Definition read_and_analyze (rel source : string) : string + Items :=
  match read_error rel with
  | Some e => inl e
  | None => analyze source
  end.

(** The loop body, lines 94-124. *)
Definition analyze_file (tree : Tree)
    (acc : gmap string Items * list string) (rel : string)
  : gmap string Items * list string :=
  match tree !! rel with
  | None => acc
  | Some source =>
      if _should_skip config (abspath sep project_dir rel) then acc
      else match read_and_analyze rel source with
           | inr items => (<[rel := items]> acc.1, acc.2)
           | inl e =>
               (acc.1,
                acc.2 ++ [String.append "Parse error in "
                            (String.append rel (String.append ": " e))])
           end
  end.

Definition stage_code_analysis (tree : Tree)
    (files_to_analyze : option (list string)) : M (gmap string Items) :=
  let r := fold_left (analyze_file tree) (py_files sep tree files_to_analyze)
             (∅, []) in
  let analysis := r.1 in
  let! _ := modify (append_errors r.2) in
  let values := List.map snd (map_to_list analysis) in
  let! _ := modify (append_stage
    {| stage_name := "code_analysis";
       counters := [("analyzed_files", size analysis);
                    ("total_functions", sum_by (fun a => length (functions a)) values);
                    ("total_classes", sum_by (fun a => length (classes a)) values)] |}) in
  ret analysis.

(** *** Stage 4 *)

(** Lines 195-199: [tf.read_text] is called outside any [try]. *)
Fixpoint count_all (test_files : list (string * string)) (n : nat)
  : string + nat :=
  match test_files with
  | [] => inr n
  | tf :: tfs =>
      if _should_skip config (abspath sep project_dir tf.1) then count_all tfs n
      else match read_error tf.1 with
           | Some e => inl e
           | None => count_all tfs (n + count_tests tf.2)
           end
  end.

Definition stage_living_docs (tree : Tree) : M LivingDocs :=
  let n_features := length (rglob sep tree ".feature") in
  let n_specs := length (rglob_name sep tree "openapi." EmptyString)
                 + length (rglob_name sep tree "swagger." EmptyString) in
  let test_files := rglob_name sep tree "test_" ".py"
                    ++ rglob sep tree "_test.py" in
  match count_all test_files 0 with
  | inl e => raise e
  | inr n_tests =>
      let docs :=
        {| features := n_features; api_specs := n_specs; tests := n_tests |} in
      let! _ := modify (append_stage
        {| stage_name := "living_docs";
           counters := [("features", n_features); ("api_specs", n_specs);
                        ("tests", n_tests)] |}) in
      ret docs
  end.

(** *** Stage 5 *)

(** [(site_dir / name).write_text(...)], lines 246, 279 and 320, each
    outside any [try]. *)
Definition write_site (name : string) : M unit :=
  match write_error name with
  | Some e => raise e
  | None => modify (add_site_files [name])
  end.

(** The loop of lines 283-321: the pages written before one that raises
    stay. *)
Fixpoint write_pages (names : list string) : M unit :=
  match names with
  | [] => ret tt
  | name :: names' => let! _ := write_site name in write_pages names'
  end.

Definition stage_site_generation (analysis : gmap string Items)
    (chunks : list Chunk) (living_docs : LivingDocs) : M nat :=
  let! _ := write_site "style.css" in
  let! _ := write_site "index.html" in
  let! _ := write_pages (module_pages sep analysis) in
  let pages := 1 + length (module_pages sep analysis) in
  let! _ := modify (append_stage
    {| stage_name := "site_generation"; counters := [("pages", pages)] |}) in
  ret pages.

(** *** The orchestrator *)

Definition run (tree : Tree) : M RunLocals :=
  let! changed := stage_change_detection tree in
  let! analysis := stage_code_analysis tree (or_none changed) in
  let! chunks := stage_rag_indexing md5 analysis in
  let! living := stage_living_docs tree in
  let! pages := stage_site_generation analysis chunks living in
  let l := {| changed := changed; analysis := analysis; chunks := chunks;
              living := living; pages := pages |} in
  let! _ := write_report l in
  ret l.

(** The pair (analysis, new errors) the loop of stage 2 ends with. *)
Definition analysed (tree : Tree) (files_to_analyze : option (list string))
  : gmap string Items * list string :=
  fold_left (analyze_file tree) (py_files sep tree files_to_analyze) (∅, []).

End Failing.

End FullStackIO.

(** ** Trees with a path that cannot be read and a page that cannot be
       written *)

Module SampleIO.
Import FullStack.

(** Every path can be read; every page can be written. *)
Definition all_readable (rel : string) : option string := None.
Definition all_writable (name : string) : option string := None.

(** A project with a module and a Markdown file without read permission. *)
Definition with_secret : Tree :=
  {[ "a.py" := "x = 1"; "notes.md" := "# private" ]}.

Definition denied (rel : string) : option string :=
  if String.eqb rel "notes.md"
  then Some "[Errno 13] Permission denied: '/srv/app/notes.md'"
  else None.

(** A file system whose file names hold at most 255 characters. *)
Definition name_too_long (name : string) : option string :=
  if Nat.ltb 255 (String.length name)
  then Some "[Errno 36] File name too long" else None.

(** A module ten directories deep: a path of 286 characters, no component
    longer than 27. *)
Definition deep_module : string :=
  String.append
    (String.concat "/" (List.repeat "subpackage_with_a_long_name" 10))
    "/mod.py".

Definition deep : Tree := {[ deep_module := "x = 1" ]}.

(** [run] on a POSIX path below [/srv/app], with the collaborators of
    [Demo]. *)
Definition run (read_error write_error : string → option string)
    (tree : Tree) : M RunLocals :=
  FullStackIO.run "/" "/srv/app" DEFAULT_CONFIG Demo.digest Demo.parser
    Demo.no_tests read_error write_error tree.

End SampleIO.

(** * Properties *)

(** ** The string operations *)

Module PyStrFacts.
Import PyStr.

Lemma append_nil_r s : String.append s EmptyString = s.
Proof. induction s as [|c s IH]; simpl; [done|by rewrite IH]. Qed.

Lemma append_assoc s t u :
  String.append (String.append s t) u = String.append s (String.append t u).
Proof. induction s as [|c s IH]; simpl; [done|by rewrite IH]. Qed.

Lemma length_append s t :
  String.length (String.append s t) = String.length s + String.length t.
Proof. induction s as [|c s IH]; simpl; [done|by rewrite IH]. Qed.

Lemma prefix_spec p s :
  String.prefix p s = true ↔ ∃ post, s = String.append p post.
Proof.
  revert s. induction p as [|c p IH]; intros s; simpl.
  - split; [intros _; by exists s|by destruct s].
  - destruct s as [|d s]; [split; [done|by intros [? ?]]|].
    simpl. destruct (ascii_dec c d) as [->|Hne].
    + rewrite IH. split; intros [post H]; exists post; congruence.
    + split; [done|]. intros [post H]. congruence.
Qed.

Lemma contains_cons c s p :
  contains (String c s) p = String.prefix p (String c s) || contains s p.
Proof. reflexivity. Qed.

Lemma contains_nil p :
  contains EmptyString p = String.prefix p EmptyString.
Proof. unfold contains. apply orb_false_r. Qed.

(** [p in s] holds exactly when [s] is [pre + p + post]. *)
Lemma contains_spec s p :
  contains s p = true ↔
  ∃ pre post, s = String.append pre (String.append p post).
Proof.
  induction s as [|c s IH].
  - rewrite contains_nil, prefix_spec. split.
    + intros [post H]. by exists EmptyString, post.
    + intros (pre & post & H). destruct pre; simpl in H; [by exists post|done].
  - rewrite contains_cons, orb_true_iff, IH, prefix_spec. split.
    + intros [[post H]|(pre & post & H)].
      * by exists EmptyString, post.
      * exists (String c pre), post. simpl. by rewrite H.
    + intros (pre & post & H). destruct pre as [|d pre]; simpl in H.
      * left. by exists post.
      * right. exists pre, post. congruence.
Qed.

Lemma substring_skip pre k s :
  String.substring (String.length pre) k (String.append pre s)
  = String.substring 0 k s.
Proof. induction pre as [|c pre IH]; simpl; [done|exact IH]. Qed.

Lemma substring_all s : String.substring 0 (String.length s) s = s.
Proof. induction s as [|c s IH]; simpl; [done|by rewrite IH]. Qed.

Lemma substring_cut m s :
  (m ≤ String.length s)%nat →
  s = String.append (String.substring 0 m s)
        (String.substring m (String.length s - m) s).
Proof.
  revert m. induction s as [|c s IH]; intros m Hm; simpl in *.
  - by destruct m.
  - destruct m as [|m]; simpl.
    + by rewrite substring_all.
    + f_equal. apply IH. lia.
Qed.

(** [s.endswith(suf)] holds exactly when [s] is [pre + suf]. *)
Lemma endswith_spec s suf :
  endswith s suf = true ↔ ∃ pre, s = String.append pre suf.
Proof.
  unfold endswith. split.
  - destruct (Nat.leb_spec (String.length suf) (String.length s)) as [Hle|];
      [|done].
    intros Heq. apply String.eqb_eq in Heq.
    exists (String.substring 0 (String.length s - String.length suf) s).
    pose proof (substring_cut (String.length s - String.length suf) s) as Hcut.
    replace (String.length s - (String.length s - String.length suf))
      with (String.length suf) in Hcut by lia.
    rewrite Heq in Hcut. apply Hcut. lia.
  - intros [pre ->]. rewrite length_append.
    rewrite (proj2 (Nat.leb_le _ _)) by lia.
    replace (String.length pre + String.length suf - String.length suf)
      with (String.length pre) by lia.
    rewrite substring_skip, substring_all. apply String.eqb_refl.
Qed.

(** The first piece of [s.split(sep)] starts [s]. *)
Lemma split_head sep s :
  ∃ w ws post, split sep s = w :: ws ∧ s = String.append w post.
Proof.
  induction s as [|c s (w & ws & post & Hs & Hw)]; simpl.
  - by exists EmptyString, [], EmptyString.
  - destruct (Ascii.eqb c sep).
    + by exists EmptyString, (split sep s), (String c s).
    + rewrite Hs. exists (String c w), ws, post. simpl. by rewrite <- Hw.
Qed.

(** Every piece of [s.split(sep)] occurs in [s]. *)
Lemma split_contains sep s p :
  p ∈ split sep s → contains s p = true.
Proof.
  rewrite contains_spec. induction s as [|c s IH]; simpl.
  - intros Hp. apply list_elem_of_singleton in Hp as ->.
    by exists EmptyString, EmptyString.
  - destruct (split_head sep s) as (w & ws & post & Hs & Hw).
    assert (Hrec : p ∈ split sep s →
      ∃ pre post0, String c s = String.append pre (String.append p post0)).
    { intros Hp. destruct (IH Hp) as (pre & post0 & H).
      exists (String c pre), post0. simpl. by rewrite <- H. }
    destruct (Ascii.eqb c sep).
    + intros Hp. apply elem_of_cons in Hp as [->|Hp]; [|by apply Hrec].
      by exists EmptyString, (String c s).
    + rewrite Hs in Hrec |- *. intros Hp.
      apply elem_of_cons in Hp as [->|Hp]; [|apply Hrec; by right].
      exists EmptyString, post. simpl. by rewrite <- Hw.
Qed.

Lemma split_single sep s w : split sep s = [w] → w = s.
Proof.
  revert w. induction s as [|c s IH]; intros w; simpl.
  - by intros [= <-].
  - destruct (split_head sep s) as (w' & ws & post & Hs & _).
    rewrite Hs in IH |- *. destruct (Ascii.eqb c sep); [done|].
    intros [= <- ->]. f_equal. by apply IH.
Qed.

Lemma last_cons2 {A} (a b d : A) l :
  List.last (a :: b :: l) d = List.last (b :: l) d.
Proof. reflexivity. Qed.

(** The last piece of [s.split(sep)] ends [s]. *)
Lemma split_last sep s :
  ∃ pre, s = String.append pre (List.last (split sep s) EmptyString).
Proof.
  induction s as [|c s [pre Hpre]].
  - by exists EmptyString.
  - destruct (split_head sep s) as (w & ws & post & Hs & Hw).
    change (split sep (String c s)) with
      (if Ascii.eqb c sep then EmptyString :: split sep s
       else match split sep s with
            | [] => [String c EmptyString]
            | w :: ws => String c w :: ws
            end).
    rewrite Hs in Hpre |- *. destruct (Ascii.eqb c sep).
    + rewrite last_cons2. exists (String c pre).
      change (String c s = String c (String.append pre (List.last (w :: ws) EmptyString))).
      by rewrite <- Hpre.
    + destruct ws as [|w' ws].
      * apply split_single in Hs as ->. by exists EmptyString.
      * rewrite last_cons2. rewrite last_cons2 in Hpre. exists (String c pre).
        change (String c s = String c (String.append pre (List.last (w' :: ws) EmptyString))).
        by rewrite <- Hpre.
Qed.

Lemma endswith_last sep s suf :
  endswith (List.last (split sep s) EmptyString) suf = true →
  endswith s suf = true.
Proof.
  rewrite !endswith_spec. intros [pre H].
  destruct (split_last sep s) as [pre' H'].
  exists (String.append pre' pre). by rewrite append_assoc, <- H.
Qed.

Lemma replace_app old new s t :
  replace old new (String.append s t)
  = String.append (replace old new s) (replace old new t).
Proof. induction s as [|c s IH]; simpl; [done|by rewrite IH]. Qed.

Lemma substring_prefix s t :
  String.substring 0 (String.length s) (String.append s t) = s.
Proof. induction s as [|c s IH]; simpl; [by destruct t|by rewrite IH]. Qed.

(** [rstrip] stops at the last character that is not in [chars]. *)
Lemma rstrip_stop chars s c t :
  mem c chars = false → rstrip chars t = EmptyString →
  rstrip chars (String.append s (String c t))
  = String.append s (String c EmptyString).
Proof.
  intros Hc Ht. induction s as [|d s IH]; simpl.
  - by rewrite Ht, Hc.
  - rewrite IH. by destruct s.
Qed.

End PyStrFacts.

(** ** Affected-set resolution ([GitDrivenDocPipeline.resolve_affected]) *)

Module GitDrivenFacts.
Import GitDriven.

(** What [enqueue] and [expand] do to the pair (affected, queue). *)

Lemma enqueue_affected aq d : aq.1 ⊆ (enqueue aq d).1 ∧ d ∈ (enqueue aq d).1.
Proof.
  unfold enqueue. destruct (decide (d ∈ aq.1)); simpl; set_solver.
Qed.

Lemma fold_enqueue_mono ds aq : aq.1 ⊆ (fold_left enqueue ds aq).1.
Proof.
  revert aq. induction ds as [|d ds IH]; intros aq; simpl; [done|].
  etrans; [apply (enqueue_affected aq d)|apply IH].
Qed.

Lemma fold_enqueue_covers ds aq d :
  d ∈ ds → d ∈ (fold_left enqueue ds aq).1.
Proof.
  revert aq. induction ds as [|d' ds IH]; intros aq Hd; simpl.
  - by apply elem_of_nil in Hd.
  - apply elem_of_cons in Hd as [->|Hd]; [|by apply IH].
    apply fold_enqueue_mono, enqueue_affected.
Qed.

Lemma fold_enqueue_queue ds aq x :
  x ∈ aq.2 → x ∈ (fold_left enqueue ds aq).2.
Proof.
  revert aq. induction ds as [|d ds IH]; intros aq Hx; simpl; [done|].
  apply IH. unfold enqueue. destruct (decide (d ∈ aq.1)); simpl; set_solver.
Qed.

(** Every node [expand] adds to [affected] comes from the list and is put on
    the queue; the queue only grows at its end. *)
Lemma fold_enqueue_new ds aq x :
  x ∈ (fold_left enqueue ds aq).1 →
  x ∈ aq.1 ∨ (x ∈ ds ∧ x ∈ (fold_left enqueue ds aq).2).
Proof.
  revert aq. induction ds as [|d ds IH]; intros aq Hx; simpl in *; [by left|].
  destruct (IH _ Hx) as [Hin|[Hin Hq]].
  - unfold enqueue in Hin |- *. destruct (decide (d ∈ aq.1)); simpl in *.
    + by left.
    + apply elem_of_union in Hin as [Hin|Hin]; [|by left].
      apply elem_of_singleton in Hin as ->. right. split; [left|].
      apply fold_enqueue_queue. simpl. set_solver.
  - right. split; [by right|done].
Qed.

Lemma fold_enqueue_queued ds aq :
  (∀ x, x ∈ aq.2 → x ∈ aq.1) →
  ∀ x, x ∈ (fold_left enqueue ds aq).2 → x ∈ (fold_left enqueue ds aq).1.
Proof.
  revert aq. induction ds as [|d ds IH]; intros aq Hq; simpl; [done|].
  apply IH. unfold enqueue. destruct (decide (d ∈ aq.1)); simpl; [done|].
  intros x Hx. apply elem_of_app in Hx as [Hx|Hx]; set_solver.
Qed.

(** *** Termination: each iteration lowers [measure] by one *)

Lemma dependents_all g c d : d ∈ dependents g c → d ∈ all_dependents g.
Proof.
  unfold dependents, all_dependents. intros Hd.
  apply elem_of_elements in Hd.
  destruct (g !! c) as [ds|] eqn:Hc; simpl in Hd; [|set_solver].
  apply elem_of_union_list. exists ds. split; [|done].
  apply list_elem_of_In, in_map_iff. exists (c, ds). split; [done|].
  apply list_elem_of_In, elem_of_map_to_list, Hc.
Qed.

Lemma size_difference_add (U a : gset string) d :
  d ∈ U → d ∉ a → S (size (U ∖ ({[d]} ∪ a))) = size (U ∖ a).
Proof.
  intros HU Ha.
  assert (HE : U ∖ a = {[d]} ∪ U ∖ ({[d]} ∪ a)).
  { apply set_eq. intros x. destruct (decide (x = d)) as [->|]; set_solver. }
  rewrite HE, (size_union {[d]}) by set_solver.
  by rewrite size_singleton.
Qed.

Lemma fold_enqueue_measure (U : gset string) ds aq :
  (∀ d, d ∈ ds → d ∈ U) →
  length (fold_left enqueue ds aq).2 + size (U ∖ (fold_left enqueue ds aq).1)
  = length aq.2 + size (U ∖ aq.1).
Proof.
  revert aq. induction ds as [|d ds IH]; intros aq HU; simpl; [done|].
  rewrite IH by (intros; apply HU; by right).
  unfold enqueue. destruct (decide (d ∈ aq.1)); simpl; [done|].
  rewrite length_app; simpl.
  rewrite <- (size_difference_add U aq.1 d); [lia| |done].
  apply HU. by left.
Qed.

Lemma step_measure g st st' :
  step g st = Some st' → S (measure g st') = measure g st.
Proof.
  unfold step, measure. destruct (queue st) as [|c rest]; [done|].
  destruct (decide (c ∈ visited st)); intros [= <-]; simpl; [done|].
  unfold expand. rewrite fold_enqueue_measure; [done|].
  intros d Hd. by eapply dependents_all.
Qed.

Lemma loop_terminates g fuel st :
  (measure g st ≤ fuel)%nat → is_Some (loop fuel g st).
Proof.
  revert st. induction fuel as [|fuel IH]; intros st Hm; simpl.
  - destruct (step g st) as [st'|] eqn:Hs; [|by eexists].
    apply step_measure in Hs. lia.
  - destruct (step g st) as [st'|] eqn:Hs; [|by eexists].
    apply IH. apply step_measure in Hs. lia.
Qed.

(** More fuel than needed does not change the result. *)
Lemma loop_more_fuel g fuel k st r :
  loop fuel g st = Some r → loop (fuel + k) g st = Some r.
Proof.
  revert st. induction fuel as [|fuel IH]; intros st; simpl.
  - destruct (step g st) eqn:Hs; [done|]. intros [= <-].
    destruct k; simpl; by rewrite Hs.
  - destruct (step g st) eqn:Hs; [apply IH|done].
Qed.

(** *** Correctness: the loop computes the closure of the changed set *)

Lemma closing_init g changed : closing g changed (init changed).
Proof.
  split; simpl.
  - done.
  - intros x Hx. by constructor.
  - set_solver.
  - intros x Hx. left. by apply elem_of_elements.
  - intros x Hx. by apply elem_of_elements in Hx.
Qed.

Lemma closing_step g changed st st' :
  closing g changed st → step g st = Some st' → closing g changed st'.
Proof.
  intros [Hseed Hsound Hdone Htodo Hqueue]. unfold step.
  destruct (queue st) as [|c rest] eqn:Hq; [done|].
  destruct (decide (c ∈ visited st)) as [Hv|Hv]; intros [= <-]; split; simpl.
  - done.
  - done.
  - done.
  - intros x Hx. destruct (Htodo x Hx) as [Hin|Hin]; [|by right].
    apply elem_of_cons in Hin as [->|Hin]; [by right|by left].
  - intros x Hx. apply Hqueue. by right.
  - etrans; [exact Hseed|]. apply (fold_enqueue_mono _ (affected st, rest)).
  - intros x Hx. unfold expand in Hx.
    apply fold_enqueue_new in Hx as [Hx|[Hx _]]; simpl in Hx; [by apply Hsound|].
    apply reach_dependent with c; [|done].
    apply Hsound, Hqueue. by left.
  - intros x d Hx Hd. unfold expand.
    apply elem_of_union in Hx as [Hx|Hx].
    + apply elem_of_singleton in Hx as ->. by apply fold_enqueue_covers.
    + apply (fold_enqueue_mono _ (affected st, rest)). simpl. by eapply Hdone.
  - intros x Hx. unfold expand in *.
    apply fold_enqueue_new in Hx as [Hx|[_ Hx]]; simpl in Hx; [|by left].
    destruct (Htodo x Hx) as [Hin|Hin]; [|right; set_solver].
    apply elem_of_cons in Hin as [->|Hin]; [right; set_solver|].
    left. by apply fold_enqueue_queue.
  - unfold expand. apply fold_enqueue_queued. simpl.
    intros x Hx. apply Hqueue. by right.
Qed.

Lemma closing_exit g changed st x :
  closing g changed st → queue st = [] →
  x ∈ affected st ↔ reach g changed x.
Proof.
  intros [Hseed Hsound Hdone Htodo _] Hq. split; [apply Hsound|].
  induction 1 as [x Hx|x d _ IH Hd]; [by apply Hseed|].
  destruct (Htodo x IH) as [Hin|Hin].
  - rewrite Hq in Hin. by apply elem_of_nil in Hin.
  - by eapply Hdone.
Qed.

Lemma loop_closing g changed fuel st r :
  closing g changed st → loop fuel g st = Some r →
  changed ⊆ r ∧ ∀ x, x ∈ r ↔ reach g changed x.
Proof.
  revert st. induction fuel as [|fuel IH]; intros st Hc; simpl;
    destruct (step g st) as [st'|] eqn:Hs; try done.
  - intros [= <-]. split; [apply Hc|]. intros x. apply closing_exit; [done|].
    unfold step in Hs. destruct (queue st); [done|]. by case_decide.
  - eauto using closing_step.
  - intros [= <-]. split; [apply Hc|]. intros x. apply closing_exit; [done|].
    unfold step in Hs. destruct (queue st); [done|]. by case_decide.
Qed.

(** *** No revisit: what is on the queue is new *)

Lemma fresh_init changed : fresh_queue (init changed).
Proof.
  split; simpl.
  - apply NoDup_elements.
  - intros x Hx. by apply elem_of_elements in Hx.
  - set_solver.
Qed.

Lemma fold_enqueue_fresh (V : gset string) ds aq :
  NoDup aq.2 → (∀ x, x ∈ aq.2 → x ∈ aq.1) →
  (∀ x, x ∈ V → x ∈ aq.1 ∧ x ∉ aq.2) →
  let r := fold_left enqueue ds aq in
  NoDup r.2 ∧ (∀ x, x ∈ r.2 → x ∈ r.1) ∧ (∀ x, x ∈ V → x ∈ r.1 ∧ x ∉ r.2).
Proof.
  revert aq. induction ds as [|d ds IH]; intros aq Hnd Hq HV; simpl; [done|].
  apply IH; unfold enqueue; destruct (decide (d ∈ aq.1)) as [Hd|Hd]; simpl;
    try done.
  - apply NoDup_app. split_and!; [done| |apply NoDup_singleton].
    intros x Hx Hx'. apply list_elem_of_singleton in Hx' as ->. auto.
  - intros x Hx. apply elem_of_app in Hx as [Hx|Hx]; set_solver.
  - intros x Hx. destruct (HV x Hx) as [Ha Hnq]. split; [set_solver|].
    intros Hx'. apply elem_of_app in Hx' as [Hx'|Hx']; [done|].
    apply list_elem_of_singleton in Hx' as ->. done.
Qed.

Lemma fresh_step g st st' :
  fresh_queue st → step g st = Some st' →
  fresh_queue st' ∧
  ∃ c rest, (queue st = c :: rest) ∧ (c ∉ visited st)
            ∧ (visited st' = {[c]} ∪ visited st).
Proof.
  intros [Hnd Hq HV]. unfold step.
  destruct (queue st) as [|c rest] eqn:Hqu; [done|].
  apply NoDup_cons in Hnd as [Hc Hnd].
  destruct (decide (c ∈ visited st)) as [Hv|Hv].
  { destruct (HV c Hv) as [_ []]. by left. }
  intros [= <-]. split; [|by exists c, rest].
  destruct (fold_enqueue_fresh ({[c]} ∪ visited st) (dependents g c)
              (affected st, rest)) as (H1 & H2 & H3); simpl.
  - done.
  - intros x Hx. apply Hq. by right.
  - intros x Hx. apply elem_of_union in Hx as [Hx|Hx].
    + apply elem_of_singleton in Hx as ->. split; [apply Hq; by left|done].
    + destruct (HV x Hx) as [Ha Hn]. split; [done|].
      intros Hx'. apply Hn. by right.
  - by split.
Qed.

Lemma dequeued_fresh g n st :
  fresh_queue st →
  NoDup (dequeued n g st)
  ∧ (∀ x, x ∈ dequeued n g st → x ∉ visited st)
  ∧ expanded n g st = dequeued n g st.
Proof.
  revert st. induction n as [|n IH]; intros st Hf; simpl.
  - split_and!; [constructor|set_solver|done].
  - destruct (step g st) as [st'|] eqn:Hs.
    2:{ destruct (queue st); split_and!; try constructor; set_solver. }
    destruct (fresh_step _ _ _ Hf Hs) as [Hf' (c & rest & Hq & Hc & Hv)].
    rewrite Hq. destruct (IH st' Hf') as (Hnd & Hnv & He).
    rewrite decide_False by done. rewrite He. split_and!; [|  |done].
    + apply NoDup_cons. split; [|done].
      intros Hin. apply (Hnv _ Hin). rewrite Hv. set_solver.
    + intros x Hx. apply elem_of_cons in Hx as [->|Hx]; [done|].
      intros Hx'. apply (Hnv _ Hx). rewrite Hv. set_solver.
Qed.

(** *** The changed modules of a list of changed files *)

Lemma elem_of_changed_modules sep changed_files x :
  x ∈ changed_modules sep changed_files ↔
  ∃ f, f ∈ changed_files ∧ PyStr.endswith f ".py" = true ∧ x = module_of sep f.
Proof.
  unfold changed_modules.
  assert (Hgen : ∀ acc : gset string,
    x ∈ fold_left (fun acc f =>
           if PyStr.endswith f ".py" then {[module_of sep f]} ∪ acc else acc)
         changed_files acc ↔
    x ∈ acc ∨ ∃ f, f ∈ changed_files ∧ PyStr.endswith f ".py" = true
                   ∧ x = module_of sep f).
  { induction changed_files as [|f fs IH]; intros acc; simpl.
    - split; [by left|]. intros [?|(f & Hf & _)]; [done|].
      by apply elem_of_nil in Hf.
    - rewrite IH. destruct (PyStr.endswith f ".py") eqn:Hpy.
      + rewrite elem_of_union, elem_of_singleton. split.
        * intros [[->|?]|(f' & ? & ? & ?)]; [right; exists f|by left|right; exists f'];
            split_and!; try done; by constructor.
        * intros [?|(f' & Hf & ? & ?)]; [by left; right|].
          apply elem_of_cons in Hf as [->|Hf]; [by left; left|].
          right. by exists f'.
      + split.
        * intros [?|(f' & ? & ? & ?)]; [by left|right; exists f'].
          split_and!; try done; by constructor.
        * intros [?|(f' & Hf & Hpy' & ?)]; [by left|].
          apply elem_of_cons in Hf as [->|Hf]; [congruence|].
          right. by exists f'. }
  rewrite Hgen. set_solver.
Qed.

(** *** The two-node cycle *)

Lemma two_cycle_dependents A B x d :
  d ∈ dependents (two_cycle A B) x →
  (x = A ∧ d = B) ∨ (x = B ∧ d = A).
Proof.
  unfold dependents, two_cycle. intros Hd. apply elem_of_elements in Hd.
  destruct (decide (x = A)) as [->|HA].
  - rewrite lookup_insert_eq in Hd. simpl in Hd. set_solver.
  - rewrite lookup_insert_ne in Hd by done.
    destruct (decide (x = B)) as [->|HB].
    + rewrite lookup_singleton_eq in Hd. simpl in Hd. set_solver.
    + rewrite lookup_singleton_ne in Hd by done. set_solver.
Qed.

Lemma two_cycle_forward A B : B ∈ dependents (two_cycle A B) A.
Proof.
  unfold dependents, two_cycle. apply elem_of_elements.
  rewrite lookup_insert_eq. simpl. set_solver.
Qed.

Lemma two_cycle_backward A B : A ∈ dependents (two_cycle A B) B.
Proof.
  unfold dependents, two_cycle. apply elem_of_elements.
  destruct (decide (B = A)) as [->|HA].
  - rewrite lookup_insert_eq. simpl. set_solver.
  - rewrite lookup_insert_ne by done. rewrite lookup_singleton_eq.
    simpl. set_solver.
Qed.

Lemma two_cycle_reach A B changed x :
  changed ≠ ∅ → changed ⊆ {[A; B]} →
  reach (two_cycle A B) changed x ↔ x ∈ ({[A; B]} : gset string).
Proof.
  intros Hne Hsub. split.
  - induction 1 as [x Hx|x d _ IH Hd]; [by apply Hsub|].
    apply two_cycle_dependents in Hd. set_solver.
  - assert (HA : reach (two_cycle A B) changed A
                 ∧ reach (two_cycle A B) changed B).
    { apply set_choose_L in Hne as [y Hy].
      assert (Hy' := Hsub y Hy).
      apply elem_of_union in Hy' as [Hy'|Hy'];
        apply elem_of_singleton in Hy' as ->.
      - split; [by constructor|].
        eapply reach_dependent; [by constructor|apply two_cycle_forward].
      - split; [|by constructor].
        eapply reach_dependent; [by constructor|apply two_cycle_backward]. }
    intros Hx. apply elem_of_union in Hx as [Hx|Hx];
      apply elem_of_singleton in Hx as ->; apply HA.
Qed.

Lemma resolve_modules_returns g changed k :
  ∃ r, resolve_modules (enough_fuel g changed + k) g changed = Some r
       ∧ changed ⊆ r ∧ ∀ x, x ∈ r ↔ reach g changed x.
Proof.
  unfold resolve_modules, enough_fuel.
  destruct (loop_terminates g (measure g (init changed)) (init changed))
    as [r Hr]; [done|].
  exists r. split; [by apply loop_more_fuel|].
  eapply loop_closing; [apply closing_init|exact Hr].
Qed.

Lemma resolve_two_cycle A B changed k :
  changed ≠ ∅ → changed ⊆ {[A; B]} →
  resolve_modules (enough_fuel (two_cycle A B) changed + k)
    (two_cycle A B) changed = Some {[A; B]}.
Proof.
  intros Hne Hsub.
  destruct (resolve_modules_returns (two_cycle A B) changed k)
    as (r & -> & _ & Hr).
  f_equal. apply set_eq. intros x. rewrite Hr. by apply two_cycle_reach.
Qed.

(** *** Where the module id is the path-aware one *)

Lemma strip_suffix_app s suf : strip_suffix suf (String.append s suf) = s.
Proof.
  unfold strip_suffix.
  rewrite (proj2 (PyStrFacts.endswith_spec _ _)) by (by exists s).
  rewrite PyStrFacts.length_append.
  replace (String.length s + String.length suf - String.length suf)
    with (String.length s) by lia.
  apply PyStrFacts.substring_prefix.
Qed.

(** The ids agree on every [.py] path whose stem ends in a character other
    than [.], [p], [y] and the separator. *)
Theorem module_of_agrees (sep c : ascii) (s : string) :
  sep ≠ "p"%char → sep ≠ "y"%char → c ≠ sep →
  PyStr.mem c ".py" = false →
  module_of sep (String.append s (String c ".py"))
  = artifact_id sep (String.append s (String c ".py")).
Proof.
  intros Hp Hy Hc Hmem. unfold module_of, artifact_id.
  change (String c ".py") with (String.append (String c EmptyString) ".py").
  rewrite <- PyStrFacts.append_assoc, strip_suffix_app.
  rewrite !PyStrFacts.replace_app. cbn [PyStr.replace].
  rewrite (proj2 (Ascii.eqb_neq c sep)) by done.
  rewrite (proj2 (Ascii.eqb_neq "p" sep)) by congruence.
  rewrite (proj2 (Ascii.eqb_neq "y" sep)) by congruence.
  replace (if Ascii.eqb "." sep then "."%char else "."%char) with "."%char
    by (by destruct (Ascii.eqb "." sep)).
  rewrite PyStrFacts.append_assoc.
  change (String.append (String c EmptyString) ".py") with (String c ".py").
  by apply PyStrFacts.rstrip_stop.
Qed.

Lemma module_of_agrees_witness :
  module_of "/" "pkg/util.py" = artifact_id "/" "pkg/util.py".
Proof.
  apply (module_of_agrees "/" "l" "pkg/uti"); [discriminate..|reflexivity].
Defined.

(** The affected set is the closure: exactly the changed modules and their
    direct and transitive dependents. *)
Theorem affected_is_closure (g : Graph) (changed : gset string) (k : nat) :
  ∃ r, resolve_modules (enough_fuel g changed + k) g changed = Some r
       ∧ ∀ x, x ∈ r ↔ reach g changed x.
Proof.
  destruct (resolve_modules_returns g changed k) as (r & Hr & _ & Hreach).
  by exists r.
Qed.

(** *** The claims on affected-set resolution *)

(** C1: for every set of changed module ids and every dependency graph,
    resolution returns, and the affected set it returns contains every
    changed id.  It is stated on the loop ([resolve_modules], any changed
    set) and on the method ([resolve_affected], the changed set it derives
    from the changed files). *)
Theorem changed_subset_affected
    (g : Graph) (changed : gset string) (sep : ascii)
    (changed_files : list string) (k : nat) :
  (∃ r, resolve_modules (enough_fuel g changed + k) g changed = Some r
        ∧ changed ⊆ r)
  ∧ (∃ r, resolve_affected
            (enough_fuel g (changed_modules sep changed_files) + k)
            sep g changed_files = Some r
          ∧ changed_modules sep changed_files ⊆ r).
Proof.
  split.
  - destruct (resolve_modules_returns g changed k) as (r & Hr & Hsub & _).
    by exists r.
  - unfold resolve_affected.
    destruct (resolve_modules_returns g (changed_modules sep changed_files) k)
      as (r & Hr & Hsub & _).
    by exists r.
Qed.

(** C4: resolution terminates on every finite graph, cyclic or not: with
    [enough_fuel] iterations (or more) the loop exits.  In every prefix of
    the run the dequeued nodes are pairwise distinct, and each dequeued node
    is expanded (so no node is dequeued or expanded twice).  On the two-node
    cycle (A imports B, B imports A) a changed set holding A, B or both
    resolves to exactly {A, B}. *)
Theorem resolution_terminates_without_revisit
    (g : Graph) (changed : gset string) (k n : nat) (A B : string) :
  is_Some (resolve_modules (enough_fuel g changed + k) g changed)
  ∧ NoDup (dequeued n g (init changed))
  ∧ expanded n g (init changed) = dequeued n g (init changed)
  ∧ resolve_modules (enough_fuel (two_cycle A B) {[A]} + k)
      (two_cycle A B) {[A]} = Some {[A; B]}
  ∧ resolve_modules (enough_fuel (two_cycle A B) {[B]} + k)
      (two_cycle A B) {[B]} = Some {[A; B]}
  ∧ resolve_modules (enough_fuel (two_cycle A B) {[A; B]} + k)
      (two_cycle A B) {[A; B]} = Some {[A; B]}.
Proof.
  split_and!.
  - destruct (resolve_modules_returns g changed k) as (r & Hr & _).
    by exists r.
  - apply dequeued_fresh, fresh_init.
  - apply dequeued_fresh, fresh_init.
  - apply resolve_two_cycle; set_solver.
  - apply resolve_two_cycle; set_solver.
  - apply resolve_two_cycle; set_solver.
Qed.

(** C7: on the file [happy.py] the id the code computes is [ha], because
    [rstrip('.py')] strips every trailing character that is one of [.], [p]
    and [y]; removing the suffix [.py] gives [happy].  The same happens
    below a package ([pkg/copy.py] becomes [pkg.co]). *)
Theorem module_of_strips_stem_characters :
  module_of "/" "happy.py" = "ha"
  ∧ artifact_id "/" "happy.py" = "happy"
  ∧ module_of "/" "pkg/copy.py" = "pkg.co"
  ∧ artifact_id "/" "pkg/copy.py" = "pkg.copy"
  ∧ changed_modules "/" ["happy.py"] = {[ "ha" ]}.
Proof. split_and!; reflexivity. Qed.

End GitDrivenFacts.

(** ** The full-stack orchestrator ([FullStackDocPipeline]) *)

Module FullStackFacts.
Import FullStack.

Lemma filter_none {A} (f : A → bool) (l : list A) :
  (∀ x, x ∈ l → f x = false) → List.filter f l = [].
Proof.
  induction l as [|a l IH]; intros H; simpl; [done|].
  rewrite (H a) by (by left). apply IH. intros x Hx. apply H. by right.
Qed.

Lemma filter_all {A} (f : A → bool) (l : list A) :
  (∀ x, x ∈ l → f x = true) → List.filter f l = l.
Proof.
  induction l as [|a l IH]; intros H; simpl; [done|].
  rewrite (H a) by (by left). f_equal. apply IH. intros x Hx. apply H. by right.
Qed.

Section Facts.

Variable sep : ascii.
Variable project_dir : string.
Variable config : Config.
Variable md5 : string → string.
Variable analyze : string → string + Items.
Variable count_tests : string → nat.

Local Abbreviation components := (FullStack.components sep).
Local Abbreviation detect := (FullStack.detect sep project_dir config md5).
Local Abbreviation parsed := (FullStack.parsed sep project_dir config analyze).
Local Abbreviation parse_error :=
  (FullStack.parse_error sep project_dir config analyze).
Local Abbreviation analysed := (FullStack.analysed sep project_dir config analyze).

(** *** [_should_skip] *)

Lemma should_skip_spec filepath :
  _should_skip config filepath = true ↔
  ∃ p, p ∈ ignore_patterns config
       ∧ ∃ pre post, filepath = String.append pre (String.append p post).
Proof.
  unfold _should_skip. rewrite existsb_exists. split.
  - intros (p & Hp & Hc). exists p. split; [by apply list_elem_of_In|].
    by apply PyStrFacts.contains_spec.
  - intros (p & Hp & Hc). exists p. split; [by apply list_elem_of_In|].
    by apply PyStrFacts.contains_spec.
Qed.

Lemma should_skip_component filepath p :
  p ∈ ignore_patterns config → p ∈ components filepath →
  _should_skip config filepath = true.
Proof.
  intros Hp Hc. unfold _should_skip. apply existsb_exists. exists p.
  split; [by apply list_elem_of_In|]. by eapply PyStrFacts.split_contains.
Qed.

(** *** Change detection *)

Lemma enumerate_lookup tree f :
  f ∈ enumerate sep project_dir config tree → tree !! f.1 = Some f.2.
Proof.
  unfold enumerate, rglob. intros Hf.
  apply list_elem_of_In, in_flat_map in Hf as (ext & _ & Hf).
  apply filter_In in Hf as [Hf _]. apply filter_In in Hf as [Hf _].
  apply list_elem_of_In in Hf. destruct f. by apply elem_of_map_to_list.
Qed.

Lemma enumerate_functional tree rel c1 c2 :
  (rel, c1) ∈ enumerate sep project_dir config tree →
  (rel, c2) ∈ enumerate sep project_dir config tree → c1 = c2.
Proof.
  intros H1 H2. apply enumerate_lookup in H1, H2. simpl in *. congruence.
Qed.

Lemma fold_scan_other old fs acc rel :
  rel ∉ List.map fst fs →
  (fold_left (scan md5 old) fs acc).1 !! rel = acc.1 !! rel.
Proof.
  revert acc. induction fs as [|f fs IH]; intros acc Hrel; simpl; [done|].
  simpl in Hrel. apply not_elem_of_cons in Hrel as [Hne Hrel].
  rewrite IH by done. simpl. by rewrite lookup_insert_ne.
Qed.

Lemma fold_scan_entry old fs acc rel content :
  (∀ c1 c2, (rel, c1) ∈ fs → (rel, c2) ∈ fs → c1 = c2) →
  (rel, content) ∈ fs →
  (fold_left (scan md5 old) fs acc).1 !! rel = Some (md5 content).
Proof.
  revert acc. induction fs as [|f fs IH]; intros acc Hfun Hin; simpl.
  - by apply elem_of_nil in Hin.
  - destruct (decide (rel ∈ List.map fst fs)) as [Hlater|Hlater].
    + apply list_elem_of_In, in_map_iff in Hlater as ([rel' c'] & Heq & Hc').
      simpl in Heq. subst rel'. apply list_elem_of_In in Hc'.
      assert (c' = content) as ->.
      { apply Hfun; [by right|done]. }
      apply IH; [|done]. intros c1 c2 H1 H2. apply Hfun; by right.
    + rewrite fold_scan_other by done.
      apply elem_of_cons in Hin as [<-|Hin].
      * simpl. by rewrite lookup_insert_eq.
      * destruct Hlater. apply list_elem_of_In, in_map_iff.
        exists (rel, content). split; [done|by apply list_elem_of_In].
Qed.

Lemma fold_scan_changed old fs acc :
  (fold_left (scan md5 old) fs acc).2
  = acc.2 ++ List.map fst
      (List.filter
         (fun f => negb (bool_decide (old !! f.1 = Some (md5 f.2)))) fs).
Proof.
  revert acc. induction fs as [|f fs IH]; intros acc; simpl.
  - by rewrite app_nil_r.
  - rewrite IH. simpl. destruct (decide (old !! f.1 = Some (md5 f.2))) as [H|H].
    + by rewrite bool_decide_eq_true_2.
    + rewrite bool_decide_eq_false_2 by done. simpl.
      by rewrite <- app_assoc.
Qed.

(** The new store has exactly the enumerated files, each with the digest of
    its content. *)
Lemma detect_store tree old rel :
  (detect tree old).1 !! rel
  = if decide (rel ∈ List.map fst (enumerate sep project_dir config tree))
    then md5 <$> tree !! rel else None.
Proof.
  unfold detect. case_decide as Hin.
  - apply list_elem_of_In, in_map_iff in Hin as ([rel' c] & Heq & Hc).
    simpl in Heq. subst rel'. apply list_elem_of_In in Hc.
    pose proof (enumerate_lookup _ _ Hc) as Hl. simpl in Hl. rewrite Hl. simpl.
    apply fold_scan_entry; [|done]. apply enumerate_functional.
  - by rewrite fold_scan_other.
Qed.

(** With the store the same tree produced, nothing is changed. *)
Lemma detect_again tree old :
  (detect tree (detect tree old).1).2 = [].
Proof.
  unfold detect at 1. rewrite fold_scan_changed. simpl.
  rewrite filter_none; [done|]. intros f Hf.
  apply negb_false_iff, bool_decide_eq_true_2.
  rewrite detect_store. rewrite decide_True.
  - by rewrite (enumerate_lookup _ _ Hf).
  - apply list_elem_of_In, in_map. by apply list_elem_of_In.
Qed.

(** With an empty store, every enumerated file is changed. *)
Lemma detect_empty tree :
  (detect tree ∅).2 = List.map fst (enumerate sep project_dir config tree).
Proof.
  unfold detect. rewrite fold_scan_changed. simpl. f_equal.
  apply filter_all. intros f _. by rewrite lookup_empty.
Qed.

Lemma stage_change_detection_returns tree st :
  cache_file st ≠ Some Unparsable →
  stage_change_detection sep project_dir config md5 tree st
  = Returned (detect tree (old_cache st)).2
      (append_stage
         {| stage_name := "change_detection";
            counters :=
              [("changed_files", length (detect tree (old_cache st)).2);
               ("total_files", size (detect tree (old_cache st)).1)] |}
         (set_cache_file (Parsed (detect tree (old_cache st)).1) st)).
Proof.
  intros Hc. unfold stage_change_detection, load_cache, bind, get, old_cache.
  destruct (cache_file st) as [[c|]|]; done.
Qed.

Lemma stage_change_detection_raises tree st :
  cache_file st = Some Unparsable →
  stage_change_detection sep project_dir config md5 tree st
  = Raised "JSONDecodeError" st.
Proof.
  intros Hc. unfold stage_change_detection, load_cache, bind, get.
  by rewrite Hc.
Qed.

(** A file is enumerated exactly when it is in the tree, its name ends in a
    configured extension and [_should_skip] lets its path through. *)
Lemma elem_of_enumerate tree f :
  f ∈ enumerate sep project_dir config tree ↔
  tree !! f.1 = Some f.2
  ∧ (∃ ext, ext ∈ extensions config
            ∧ PyStr.endswith (basename sep f.1) ext = true)
  ∧ _should_skip config (abspath sep project_dir f.1) = false.
Proof.
  unfold enumerate, rglob. rewrite list_elem_of_In, in_flat_map. split.
  - intros (ext & Hext & Hf). apply filter_In in Hf as [Hf Hskip].
    apply filter_In in Hf as [Hf Hends]. apply negb_true_iff in Hskip.
    split_and!; [|exists ext; split; [by apply list_elem_of_In|done]|done].
    apply list_elem_of_In in Hf. destruct f. by apply elem_of_map_to_list.
  - intros (Hf & (ext & Hext & Hends) & Hskip). exists ext.
    split; [by apply list_elem_of_In|].
    apply filter_In. split; [|by apply negb_true_iff].
    apply filter_In. split; [|done].
    apply list_elem_of_In. destruct f. by apply elem_of_map_to_list.
Qed.

(** *** Code analysis *)

Lemma analyze_file_eq tree acc rel :
  analyze_file sep project_dir config analyze tree acc rel
  = (match parsed tree rel with
     | Some items => <[rel := items]> acc.1
     | None => acc.1
     end,
     acc.2 ++ option_list (parse_error tree rel)).
Proof.
  unfold analyze_file, parsed, parse_error. destruct acc as [a es]. simpl.
  destruct (tree !! rel) as [source|]; simpl; [|by rewrite app_nil_r].
  destruct (_should_skip _ _); simpl; [by rewrite app_nil_r|].
  destruct (analyze source); simpl; [done|by rewrite app_nil_r].
Qed.

Lemma fold_analyze tree files acc :
  (∀ rel,
     (fold_left (analyze_file sep project_dir config analyze tree) files acc).1
       !! rel
     = if decide (rel ∈ files)
       then match parsed tree rel with
            | Some items => Some items
            | None => acc.1 !! rel
            end
       else acc.1 !! rel)
  ∧ (fold_left (analyze_file sep project_dir config analyze tree) files acc).2
    = acc.2 ++ omap (parse_error tree) files.
Proof.
  revert acc. induction files as [|f files IH]; intros acc; simpl.
  - split; [done|by rewrite app_nil_r].
  - rewrite analyze_file_eq.
    destruct (IH (match parsed tree f with
                  | Some items => <[f := items]> acc.1
                  | None => acc.1
                  end, acc.2 ++ option_list (parse_error tree f)))
      as [IH1 IH2].
    simpl in IH1, IH2. split.
    + intros rel. rewrite IH1. clear IH1 IH2 IH.
      destruct (decide (rel = f)) as [->|Hne].
      * rewrite (decide_True (P := f ∈ f :: files)) by (by left).
        destruct (parsed tree f) as [items|] eqn:Hp.
        -- case_decide; [done|by rewrite lookup_insert_eq].
        -- by case_decide.
      * destruct (decide (rel ∈ files)) as [Hin|Hin].
        -- rewrite (decide_True (P := rel ∈ f :: files)) by (by right).
           destruct (parsed tree rel); [done|].
           destruct (parsed tree f); [by rewrite lookup_insert_ne|done].
        -- rewrite (decide_False (P := rel ∈ f :: files)).
           ++ destruct (parsed tree f); [by rewrite lookup_insert_ne|done].
           ++ intros H. apply elem_of_cons in H as [?|?]; done.
    + rewrite IH2. rewrite <- app_assoc. f_equal.
      by destruct (parse_error tree f).
Qed.

Lemma analysed_lookup tree files rel :
  (analysed tree files).1 !! rel
  = if decide (rel ∈ py_files sep tree files) then parsed tree rel else None.
Proof.
  unfold analysed.
  rewrite (proj1 (fold_analyze tree (py_files sep tree files) (∅, []))).
  simpl. case_decide; [|done]. by destruct (parsed tree rel).
Qed.



(** Every file [stage_code_analysis] loops over ends in [.py]. *)
Lemma py_files_endswith tree files rel :
  rel ∈ py_files sep tree files → PyStr.endswith rel ".py" = true.
Proof.
  unfold py_files. intros Hin.
  assert (Hglob : rel ∈ List.map fst (rglob sep tree ".py") →
                  PyStr.endswith rel ".py" = true).
  { intros H. apply list_elem_of_In, in_map_iff in H as (f & <- & Hf).
    apply filter_In in Hf as [_ Hf]. by eapply PyStrFacts.endswith_last. }
  destruct files as [[|f fs]|]; try by apply Hglob.
  apply list_elem_of_In, filter_In in Hin as [_ Hin]. done.
Qed.

Lemma py_files_given tree f fs rel :
  rel ∈ py_files sep tree (Some (f :: fs)) → rel ∈ f :: fs.
Proof.
  unfold py_files. intros Hin.
  apply list_elem_of_In, filter_In in Hin as [Hin _].
  by apply list_elem_of_In.
Qed.

(** *** The whole run *)

Lemma run_returns tree st :
  cache_file st ≠ Some Unparsable →
  let d := detect tree (old_cache st) in
  let a := analysed tree (or_none d.2) in
  ∃ l st',
    run sep project_dir config md5 analyze count_tests tree st = Returned l st'
    ∧ changed l = d.2
    ∧ analysis l = a.1
    ∧ pages l = 1 + length (module_pages sep a.1)
    ∧ cache_file st' = Some (Parsed d.1)
    ∧ report_errors st' = report_errors st ++ a.2
    ∧ site st' = list_to_set (module_pages sep a.1)
                 ∪ (list_to_set ["index.html"]
                    ∪ (list_to_set ["style.css"] ∪ site st))
    ∧ ∃ r, report_file st' = Some r
           ∧ rep_errors r = report_errors st ++ a.2
           ∧ rep_stats r = [("files_analyzed", size a.1);
                            ("search_chunks",
                             length (flat_map (chunks_of md5) (map_to_list a.1)));
                            ("pages_generated", 1 + length (module_pages sep a.1));
                            ("errors", length (report_errors st ++ a.2))].
Proof.
  intros Hc d a. unfold run, bind.
  rewrite stage_change_detection_returns by done.
  unfold stage_code_analysis, stage_rag_indexing, stage_living_docs,
    stage_site_generation, write_report, bind, modify, ret, get.
  eexists _, _. split; [reflexivity|]. simpl.
  split_and!; try reflexivity. eexists. split_and!; reflexivity.
Qed.

Lemma run_raises tree st :
  cache_file st = Some Unparsable →
  run sep project_dir config md5 analyze count_tests tree st
  = Raised "JSONDecodeError" st.
Proof.
  intros Hc. unfold run, bind. by rewrite stage_change_detection_raises.
Qed.

Lemma module_page_written (a : gmap string Items) rel items :
  a !! rel = Some items →
  String.append (safe sep rel) ".html" ∈ module_pages sep a.
Proof.
  intros Ha. unfold module_pages. apply list_elem_of_In, in_map_iff.
  exists (rel, items). split; [done|].
  by apply list_elem_of_In, elem_of_map_to_list.
Qed.

Lemma parsed_analysed tree files rel :
  rel ∈ py_files sep tree files →
  (analysed tree files).1 !! rel = parsed tree rel.
Proof. intros Hin. rewrite analysed_lookup. by rewrite decide_True. Qed.


(** *** The claims on the orchestrator *)

(** C8 (as the code has it): [_should_skip] excludes a path exactly when
    some configured pattern occurs in the path string as a substring.  So a
    pattern that is a path component excludes the path, and so does a
    pattern that occurs inside a component.  A file of the tree is
    enumerated by change detection exactly when its name ends in a
    configured extension and no pattern occurs in its absolute path. *)
Theorem should_skip_iff_substring (tree : Tree) (filepath : string)
    (f : string * string) :
  (_should_skip config filepath = true ↔
     ∃ p, p ∈ ignore_patterns config
          ∧ ∃ pre post, filepath = String.append pre (String.append p post))
  ∧ (∀ p, p ∈ ignore_patterns config → p ∈ components filepath →
          _should_skip config filepath = true)
  ∧ (f ∈ enumerate sep project_dir config tree ↔
       tree !! f.1 = Some f.2
       ∧ (∃ ext, ext ∈ extensions config
                 ∧ PyStr.endswith (basename sep f.1) ext = true)
       ∧ _should_skip config (abspath sep project_dir f.1) = false).
Proof.
  split_and!.
  - apply should_skip_spec.
  - intros p. apply should_skip_component.
  - apply elem_of_enumerate.
Qed.

(** C9: when change detection returns, the store it has written holds an
    entry for exactly the files it enumerated, each with the digest of its
    content, whatever the previous store held; a path that is not in the
    tree has no entry.  In particular, after a file is deleted from the tree
    the next run's store has no entry for it. *)
Theorem store_holds_exactly_enumerated_files (tree : Tree) (st : State) :
  cache_file st ≠ Some Unparsable →
  ∃ changed_files st' c,
    stage_change_detection sep project_dir config md5 tree st
    = Returned changed_files st'
    ∧ cache_file st' = Some (Parsed c)
    ∧ (∀ rel, is_Some (c !! rel) ↔
              rel ∈ List.map fst (enumerate sep project_dir config tree))
    ∧ (∀ rel content, (rel, content) ∈ enumerate sep project_dir config tree →
                      c !! rel = Some (md5 content))
    ∧ (∀ rel, tree !! rel = None → c !! rel = None)
    ∧ (∀ gone, ∃ changed_files2 st2 c2,
         stage_change_detection sep project_dir config md5
           (delete gone tree) (reopen st')
         = Returned changed_files2 st2
         ∧ cache_file st2 = Some (Parsed c2)
         ∧ c2 !! gone = None).
Proof.
  intros Hc. rewrite stage_change_detection_returns by done.
  eexists _, _, _. split; [reflexivity|]. split; [reflexivity|].
  assert (Habsent : ∀ (t : Tree) old rel,
            t !! rel = None → (detect t old).1 !! rel = None).
  { intros t old rel Hrel. rewrite detect_store, Hrel. by case_decide. }
  split_and!.
  - intros rel. rewrite detect_store. case_decide as Hin; [|by split; [intros []|]].
    split; [done|intros _].
    apply list_elem_of_In, in_map_iff in Hin as ([rel' content] & Heq & Hin).
    simpl in Heq. subst rel'. apply list_elem_of_In, enumerate_lookup in Hin.
    simpl in Hin. by rewrite Hin.
  - intros rel content Hin. rewrite detect_store, decide_True.
    + apply enumerate_lookup in Hin. simpl in Hin. by rewrite Hin.
    + apply list_elem_of_In, in_map_iff. exists (rel, content).
      split; [done|by apply list_elem_of_In].
  - intros rel. apply Habsent.
  - intros gone. rewrite stage_change_detection_returns by done.
    eexists _, _, _. split; [reflexivity|]. split; [reflexivity|].
    apply Habsent, lookup_delete_eq.
Qed.

(** C5 (as the code has it): when the store document is missing, loading
    gives the empty store, change detection returns with every enumerated
    file reported as changed, and the run goes on to its end. *)
Theorem missing_store_is_empty_store (tree : Tree) (st : State) :
  cache_file st = None →
  load_cache st = Returned ∅ st
  ∧ (∃ st', stage_change_detection sep project_dir config md5 tree st
            = Returned
                (List.map fst (enumerate sep project_dir config tree)) st')
  ∧ (∃ l st', run sep project_dir config md5 analyze count_tests tree st
              = Returned l st'
              ∧ changed l
                = List.map fst (enumerate sep project_dir config tree)).
Proof.
  intros Hc.
  assert (Hne : cache_file st ≠ Some Unparsable) by (by rewrite Hc).
  assert (Hold : old_cache st = ∅) by (unfold old_cache; by rewrite Hc).
  split_and!.
  - unfold load_cache, bind, get. by rewrite Hc.
  - rewrite stage_change_detection_returns by done.
    rewrite Hold, detect_empty. by eexists.
  - destruct (run_returns tree st Hne) as (l & st' & Hrun & Hch & _).
    exists l, st'. split; [done|]. by rewrite Hch, Hold, detect_empty.
Qed.


(** A file is reported as changed exactly when it is enumerated and the
    previous store has no entry for it or an entry with another digest. *)
Theorem changed_iff_new_or_modified (tree : Tree) (st : State) (rel : string) :
  rel ∈ (detect tree (old_cache st)).2 ↔
  ∃ content, (rel, content) ∈ enumerate sep project_dir config tree
             ∧ old_cache st !! rel ≠ Some (md5 content).
Proof.
  unfold FullStack.detect. rewrite fold_scan_changed. simpl.
  rewrite list_elem_of_In, in_map_iff. split.
  - intros ([rel' content] & Heq & Hin). simpl in Heq. subst rel'.
    apply filter_In in Hin as [Hin Hne]. exists content.
    split; [by apply list_elem_of_In|].
    apply negb_true_iff, bool_decide_eq_false_1 in Hne. done.
  - intros (content & Hin & Hne). exists (rel, content). split; [done|].
    apply filter_In. split; [by apply list_elem_of_In|].
    by apply negb_true_iff, bool_decide_eq_false_2.
Qed.

(** C2 (as the code has it): when a run has completed and the tree has not
    changed, the next run (a new pipeline object over the same output
    directory) completes with an empty changed list.  With an empty changed
    list [run] passes [None] to code analysis, which then analyses every
    Python file of the project: the run analyses what a full analysis
    analyses and writes the index page and one page per analysed module. *)
Theorem second_run_detects_nothing_and_rebuilds (tree : Tree) (st : State) :
  cache_file st ≠ Some Unparsable →
  ∃ l1 st1 l2 st2,
    run sep project_dir config md5 analyze count_tests tree st
    = Returned l1 st1
    ∧ run sep project_dir config md5 analyze count_tests tree (reopen st1)
      = Returned l2 st2
    ∧ changed l2 = []
    ∧ analysis l2 = (analysed tree None).1
    ∧ pages l2 = 1 + size (analysis l2)
    ∧ ∀ rel items,
        rel ∈ List.map fst (rglob sep tree ".py") →
        parsed tree rel = Some items →
        analysis l2 !! rel = Some items
        ∧ String.append (safe sep rel) ".html" ∈ site st2.
Proof.
  intros Hc.
  destruct (run_returns tree st Hc)
    as (l1 & st1 & Hrun1 & _ & _ & _ & Hcf1 & _).
  assert (Hc1 : cache_file (reopen st1) ≠ Some Unparsable)
    by (simpl; by rewrite Hcf1).
  destruct (run_returns tree (reopen st1) Hc1)
    as (l2 & st2 & Hrun2 & Hch & Han & Hpages & _ & _ & Hsite & _).
  assert (Hold : old_cache (reopen st1) = (detect tree (old_cache st)).1)
    by (unfold old_cache; simpl; by rewrite Hcf1).
  rewrite Hold, detect_again in Hch, Han, Hpages, Hsite. simpl in *.
  exists l1, st1, l2, st2. split_and!; try done.
  - rewrite Hpages, Han. unfold module_pages.
    by rewrite length_map, length_map_to_list.
  - intros rel items Hin Hp.
    assert (Hl : (analysed tree None).1 !! rel = Some items).
    { rewrite <- Hp. by apply parsed_analysed. }
    split; [by rewrite Han|]. rewrite Hsite.
    apply elem_of_union_l, elem_of_list_to_set.
    by eapply module_page_written.
Qed.


(** C10: only the changed files that end in [.py] count.  In the git-driven
    pipeline the changed-module set and the affected set are those of the
    [.py] entries alone.  In the full-stack pipeline every file that code
    analysis analyses ends in [.py], and when it is given a non-empty list
    every analysed file is a [.py] entry of that list; so are the analysed
    files of a run. *)
Theorem only_py_files_seed_resolution_and_analysis
    (g : GitDriven.Graph) (fuel : nat) (changed_files : list string)
    (tree : Tree) (files : option (list string)) (f : string)
    (fs : list string) (st : State) :
  let is_py := fun f : string => PyStr.endswith f ".py" in
  GitDriven.changed_modules sep changed_files
  = GitDriven.changed_modules sep (List.filter is_py changed_files)
  ∧ GitDriven.resolve_affected fuel sep g changed_files
    = GitDriven.resolve_affected fuel sep g (List.filter is_py changed_files)
  ∧ map_Forall (fun rel _ => is_py rel = true) (analysed tree files).1
  ∧ map_Forall (fun rel _ => rel ∈ List.filter is_py (f :: fs))
      (analysed tree (Some (f :: fs))).1
  ∧ match run sep project_dir config md5 analyze count_tests tree st with
    | Returned l _ => map_Forall (fun rel _ => is_py rel = true) (analysis l)
    | Raised _ _ => True
    end.
Proof.
  intros is_py.
  assert (Hcm : GitDriven.changed_modules sep changed_files
                = GitDriven.changed_modules sep (List.filter is_py changed_files)).
  { apply set_eq. intros x. rewrite !GitDrivenFacts.elem_of_changed_modules.
    split; intros (f' & Hin & Hpy & ->); exists f'; split_and!; try done.
    - apply list_elem_of_In, filter_In. split; [by apply list_elem_of_In|done].
    - apply list_elem_of_In, filter_In in Hin as [Hin _].
      by apply list_elem_of_In. }
  assert (Hpy : ∀ files', map_Forall (fun rel _ => is_py rel = true)
                            (analysed tree files').1).
  { intros files' rel items Hl. rewrite analysed_lookup in Hl.
    case_decide as Hin; [|done]. by eapply py_files_endswith. }
  split_and!.
  - done.
  - unfold GitDriven.resolve_affected. by rewrite <- Hcm.
  - apply Hpy.
  - intros rel items Hl. rewrite analysed_lookup in Hl.
    case_decide as Hin; [|done]. exact Hin.
  - destruct (decide (cache_file st = Some Unparsable)) as [Hc|Hc].
    + by rewrite run_raises.
    + destruct (run_returns tree st Hc) as (l & st' & -> & _ & -> & _).
      apply Hpy.
Qed.

End Facts.

End FullStackFacts.

(** ** Worked runs: the claims at concrete inputs *)

Module Worked.
Import FullStack.

Example endswith_py : PyStr.endswith "pkg/mod.py" ".py" = true.
Proof. reflexivity. Qed.

Example endswith_md : PyStr.endswith "README.md" ".py" = false.
Proof. reflexivity. Qed.

Example rstrip_util : PyStr.rstrip ".py" "pkg.util.py" = "pkg.util".
Proof. reflexivity. Qed.

Example rstrip_happy : PyStr.rstrip ".py" "happy.py" = "ha".
Proof. reflexivity. Qed.

Example contains_mid : PyStr.contains "/srv/venv_tools/a.py" "venv" = true.
Proof. reflexivity. Qed.

Example split_path : PyStr.split "/" "/srv/app/a.py" = [""; "srv"; "app"; "a.py"].
Proof. reflexivity. Qed.

(** The design document's scenario: [b] imports [a]; [a.py] changes. *)
Example resolve_scenario :
  GitDriven.resolve_affected 5 "/" {[ "a" := {[ "b" ]} ]} ["a.py"]
  = Some {[ "a"; "b" ]}.
Proof. vm_compute. reflexivity. Qed.

(** The two-node cycle on the files [a.py] and [b.py]. *)
Example resolve_cycle_files :
  GitDriven.resolve_affected 4 "/" (GitDriven.two_cycle "a" "b") ["b.py"]
  = Some {[ "a"; "b" ]}.
Proof. vm_compute. reflexivity. Qed.

(** C2, at a project with one module: the theorem applies from an empty
    output directory. *)
Lemma second_run_witness :
  cache_file fresh ≠ Some Unparsable
  ∧ ∃ l2 st2, Demo.second_run Demo.one_file = Returned l2 st2
              ∧ changed l2 = [] ∧ pages l2 = 1 + size (analysis l2).
Proof.
  split; [discriminate|].
  destruct (FullStackFacts.second_run_detects_nothing_and_rebuilds
              "/" "/srv/app" DEFAULT_CONFIG Demo.digest Demo.parser
              Demo.no_tests Demo.one_file fresh)
    as (l1 & st1 & l2 & st2 & H1 & H2 & Hch & _ & Hp & _); [discriminate|].
  exists l2, st2. split_and!; [|exact Hch|exact Hp].
  unfold Demo.second_run, Demo.run. rewrite H1. exact H2.
Defined.

(** C2 as stated fails: with nothing modified between two runs, the second
    run finds no changed file but still analyses [a.py] and writes two
    pages (the index and the page of [a.py]), not zero. *)
Lemma second_run_regenerates_everything :
  changed <$> returned (Demo.second_run Demo.one_file) = Some []
  ∧ pages <$> returned (Demo.second_run Demo.one_file) = Some 2
  ∧ (fun l => List.map fst (map_to_list (analysis l)))
      <$> returned (Demo.second_run Demo.one_file) = Some ["a.py"].
Proof. split_and!; vm_compute; reflexivity. Qed.


(** C5, at an output directory with no store document. *)
Lemma missing_store_witness :
  cache_file fresh = None
  ∧ load_cache fresh = Returned ∅ fresh
  ∧ ∃ l st', Demo.run Demo.docs_only fresh = Returned l st'
             ∧ changed l = ["README.md"].
Proof.
  destruct (FullStackFacts.missing_store_is_empty_store
              "/" "/srv/app" DEFAULT_CONFIG Demo.digest Demo.parser
              Demo.no_tests Demo.docs_only fresh eq_refl)
    as (Hload & _ & l & st' & Hrun & Hch).
  split; [reflexivity|]. split; [exact Hload|].
  exists l, st'. split; [exact Hrun|]. rewrite Hch. reflexivity.
Defined.

(** C5 as stated fails: a store document that does not parse is not read as
    an empty store; loading raises, change detection raises, and the run
    ends there with nothing analysed or written. *)
Lemma unparsable_store_aborts_run :
  load_cache Demo.corrupt = Raised "JSONDecodeError" Demo.corrupt
  ∧ Demo.run Demo.one_file Demo.corrupt
    = Raised "JSONDecodeError" Demo.corrupt.
Proof. split; reflexivity. Qed.


(** C8 as stated fails: [venv] is no component of the path
    [/srv/app/venv_tools/a.py], and neither is any other default pattern,
    yet [_should_skip] excludes the path, because [venv] occurs inside the
    component [venv_tools]. *)
Lemma skip_without_matching_component :
  _should_skip DEFAULT_CONFIG "/srv/app/venv_tools/a.py" = true
  ∧ components "/" "/srv/app/venv_tools/a.py"
    = [""; "srv"; "app"; "venv_tools"; "a.py"]
  ∧ Forall (fun p => p ∉ components "/" "/srv/app/venv_tools/a.py")
      (ignore_patterns DEFAULT_CONFIG).
Proof.
  split_and!; [reflexivity|reflexivity|].
  repeat constructor; intros Hin; apply list_elem_of_In in Hin;
    vm_compute in Hin; intuition discriminate.
Qed.

(** C9, at an output directory whose store lists [old.py], a file the tree
    no longer has. *)
Lemma store_witness :
  ∃ changed_files st' c,
    stage_change_detection "/" "/srv/app" DEFAULT_CONFIG Demo.digest
      Demo.three_files Demo.earlier
    = Returned changed_files st'
    ∧ cache_file st' = Some (Parsed c)
    ∧ c !! "old.py" = None
    ∧ c !! "good.py" = Some "x = 1".
Proof.
  destruct (FullStackFacts.store_holds_exactly_enumerated_files
              "/" "/srv/app" DEFAULT_CONFIG Demo.digest
              Demo.three_files Demo.earlier)
    as (ch & st' & c & Hrun & Hcf & _ & Hentry & Habsent & _); [discriminate|].
  exists ch, st', c. split_and!; [exact Hrun|exact Hcf| |].
  - apply Habsent. reflexivity.
  - apply (Hentry "good.py" "x = 1").
    apply FullStackFacts.elem_of_enumerate. split_and!.
    + reflexivity.
    + exists ".py". split; [|reflexivity].
      apply list_elem_of_In. vm_compute. tauto.
    + reflexivity.
Defined.

(** Change detection tracks [README.md], but code analysis does not take
    it: the run reports it as changed and analyses nothing. *)
Example markdown_changed_not_analysed :
  changed <$> returned (Demo.run Demo.docs_only fresh) = Some ["README.md"]
  ∧ (fun l => List.map fst (map_to_list (analysis l)))
      <$> returned (Demo.run Demo.docs_only fresh) = Some [].
Proof. split; vm_compute; reflexivity. Qed.

End Worked.

(** ** More on the git-driven pipeline *)

Module GitDrivenMore.
Import GitDriven GitDrivenDocs GitDrivenFacts.

Lemma elem_of_dependents g x d : d ∈ dependents g x ↔ edge g x d.
Proof. unfold dependents, edge. apply elem_of_elements. Qed.

Section BuildFacts.

Variable sep : ascii.
Variable read_text : string → option string.
Variable find_imports : string → list string.

Lemma add_import_edges module acc imported k v :
  (edge (add_import module acc imported).1 k v ↔
     edge acc.1 k v ∨ (k = imported ∧ v = module))
  ∧ (edge (add_import module acc imported).2 k v ↔
       edge acc.2 k v ∨ (k = module ∧ v = imported)).
Proof.
  unfold edge, add_import. simpl. split.
  - destruct (decide (k = imported)) as [->|Hne].
    + rewrite lookup_insert_eq. simpl. set_solver.
    + rewrite lookup_insert_ne by done. naive_solver.
  - destruct (decide (k = module)) as [->|Hne].
    + rewrite lookup_insert_eq. simpl. set_solver.
    + rewrite lookup_insert_ne by done. naive_solver.
Qed.

Lemma fold_add_import_edges module imports acc k v :
  (edge (fold_left (add_import module) imports acc).1 k v ↔
     edge acc.1 k v ∨ (k ∈ imports ∧ v = module))
  ∧ (edge (fold_left (add_import module) imports acc).2 k v ↔
       edge acc.2 k v ∨ (k = module ∧ v ∈ imports)).
Proof.
  revert acc. induction imports as [|i imports IH]; intros acc; simpl.
  - split; (split; [by left|]); intros [?|[H1 H2]]; try done.
    + by apply elem_of_nil in H1.
    + by apply elem_of_nil in H2.
  - destruct (IH (add_import module acc i)) as [IH1 IH2].
    destruct (add_import_edges module acc i k v) as [H1 H2].
    rewrite IH1, IH2, H1, H2, !elem_of_cons. naive_solver.
Qed.

Lemma scan_imports_edges acc f k v :
  (edge (scan_imports sep read_text find_imports acc f).1 k v ↔
     edge acc.1 k v
     ∨ (text_imports read_text find_imports f.2 k ∧ v = module_of sep f.1))
  ∧ (edge (scan_imports sep read_text find_imports acc f).2 k v ↔
       edge acc.2 k v
       ∨ (text_imports read_text find_imports f.2 v ∧ k = module_of sep f.1)).
Proof.
  unfold scan_imports, text_imports.
  destruct (read_text f.2) as [source|].
  - destruct (fold_add_import_edges (module_of sep f.1)
                (find_imports source) acc k v) as [H1 H2].
    rewrite H1, H2. naive_solver.
  - naive_solver.
Qed.

Lemma fold_scan_imports_edges fs acc k v :
  (edge (fold_left (scan_imports sep read_text find_imports) fs acc).1 k v ↔
     edge acc.1 k v
     ∨ ∃ f, f ∈ fs ∧ text_imports read_text find_imports f.2 k
            ∧ v = module_of sep f.1)
  ∧ (edge (fold_left (scan_imports sep read_text find_imports) fs acc).2 k v ↔
       edge acc.2 k v
       ∨ ∃ f, f ∈ fs ∧ text_imports read_text find_imports f.2 v
              ∧ k = module_of sep f.1).
Proof.
  revert acc. induction fs as [|f fs IH]; intros acc; simpl.
  - split; (split; [by left|]); intros [?|(f & Hf & _)]; try done;
      by apply elem_of_nil in Hf.
  - destruct (IH (scan_imports sep read_text find_imports acc f)) as [IH1 IH2].
    destruct (scan_imports_edges acc f k v) as [H1 H2].
    rewrite IH1, IH2, H1, H2. clear.
    split; split.
    + intros [[?|[? ?]]|(f' & ? & ? & ?)]; [by left|right; exists f|right; exists f'];
        rewrite elem_of_cons; naive_solver.
    + intros [?|(f' & Hf' & ? & ?)]; [by left; left|].
      apply elem_of_cons in Hf' as [->|?]; naive_solver.
    + intros [[?|[? ?]]|(f' & ? & ? & ?)]; [by left|right; exists f|right; exists f'];
        rewrite elem_of_cons; naive_solver.
    + intros [?|(f' & Hf' & ? & ?)]; [by left; left|].
      apply elem_of_cons in Hf' as [->|?]; naive_solver.
Qed.

Lemma build_edges tree k v :
  (edge (build_dependency_graph sep read_text find_imports tree).1 k v ↔
     ∃ f, f ∈ py_files sep tree
          ∧ text_imports read_text find_imports f.2 k
          ∧ v = module_of sep f.1)
  ∧ (edge (build_dependency_graph sep read_text find_imports tree).2 k v ↔
       ∃ f, f ∈ py_files sep tree
            ∧ text_imports read_text find_imports f.2 v
            ∧ k = module_of sep f.1).
Proof.
  unfold build_dependency_graph.
  destruct (fold_scan_imports_edges (py_files sep tree) (∅, ∅) k v)
    as [H1 H2].
  rewrite H1, H2. unfold edge. simpl. rewrite lookup_empty. simpl.
  split; (split; [intros [?|?]; [set_solver|done]|by right]).
Qed.

Lemma elem_of_py_files tree f :
  f ∈ py_files sep tree ↔
  tree !! f.1 = Some f.2
  ∧ PyStr.endswith (List.last (PyStr.split sep f.1) EmptyString) ".py" = true.
Proof.
  unfold py_files. rewrite list_elem_of_In, filter_In, <- list_elem_of_In.
  destruct f as [rel content]. by rewrite elem_of_map_to_list.
Qed.

(** [dep_graph] and [import_map] hold the same edges, in opposite
    directions: [module] is in [dep_graph[imported]] exactly when
    [imported] is in [import_map[module]]. *)
Theorem dep_graph_is_converse_of_import_map (tree : gmap string string)
    (imported module : string) :
  edge (build_dependency_graph sep read_text find_imports tree).1
    imported module
  ↔ edge (build_dependency_graph sep read_text find_imports tree).2
      module imported.
Proof.
  destruct (build_edges tree imported module) as [H1 _].
  destruct (build_edges tree module imported) as [_ H2].
  by rewrite H1, H2.
Qed.

(** [dep_graph] has the edge from [imported] to [module] exactly when some
    file of the tree whose name ends in [.py] can be read, has [module] as
    its id and has an import of [imported] in its text.  A file that cannot
    be read adds no edge. *)
Theorem dep_graph_edges_come_from_imports (tree : gmap string string)
    (imported module : string) :
  edge (build_dependency_graph sep read_text find_imports tree).1
    imported module
  ↔ ∃ rel content source,
      tree !! rel = Some content
      ∧ PyStr.endswith (List.last (PyStr.split sep rel) EmptyString) ".py"
        = true
      ∧ read_text content = Some source
      ∧ imported ∈ find_imports source
      ∧ module = module_of sep rel.
Proof.
  destruct (build_edges tree imported module) as [H1 _]. rewrite H1. split.
  - intros ([rel content] & Hf & (source & Hr & Hi) & ->).
    apply elem_of_py_files in Hf as [Hl He].
    by exists rel, content, source.
  - intros (rel & content & source & Hl & He & Hr & Hi & ->).
    exists (rel, content). split_and!; [by apply elem_of_py_files| |done].
    by exists source.
Qed.

(** Resolution over the graph that [build_dependency_graph] builds: the
    module of a readable Python file that imports a changed module is
    affected, and so is the module of one that imports an affected module. *)
Theorem importers_of_affected_are_affected (tree : gmap string string)
    (rel content source imported : string) (changed : gset string) (k : nat) :
  tree !! rel = Some content →
  PyStr.endswith (List.last (PyStr.split sep rel) EmptyString) ".py" = true →
  read_text content = Some source →
  imported ∈ find_imports source →
  let g := (build_dependency_graph sep read_text find_imports tree).1 in
  ∃ r, resolve_modules (enough_fuel g changed + k) g changed = Some r
       ∧ (imported ∈ changed → module_of sep rel ∈ r)
       ∧ (imported ∈ r → module_of sep rel ∈ r).
Proof.
  intros Hl He Hr Hi g.
  destruct (resolve_modules_returns g changed k) as (r & Hres & Hsub & Hreach).
  assert (Hedge : module_of sep rel ∈ dependents g imported).
  { apply elem_of_dependents, build_edges. exists (rel, content).
    split_and!; [by apply elem_of_py_files|by exists source|done]. }
  assert (Hstep : imported ∈ r → module_of sep rel ∈ r).
  { intros Hin. apply Hreach. apply reach_dependent with imported; [|done].
    by apply Hreach. }
  exists r. split_and!; [done| |done].
  intros Hin. by apply Hstep, Hsub.
Qed.

End BuildFacts.

(** *** Resolution as a closure operator *)

Lemma reach_union g c1 c2 x :
  reach g (c1 ∪ c2) x ↔ reach g c1 x ∨ reach g c2 x.
Proof.
  split.
  - induction 1 as [x Hx|x d _ IH Hd].
    + apply elem_of_union in Hx as [?|?]; [left|right]; by constructor.
    + destruct IH; [left|right]; by eapply reach_dependent.
  - intros [H|H]; induction H as [x Hx|x d _ IH Hd];
      try (by eapply reach_dependent); constructor; set_solver.
Qed.

Lemma reach_closed g changed (r : gset string) x :
  (∀ y, y ∈ r ↔ reach g changed y) → reach g r x → x ∈ r.
Proof.
  intros Hr. induction 1 as [x Hx|x d _ IH Hd]; [done|].
  apply Hr. apply reach_dependent with x; [by apply Hr|done].
Qed.

(** When no changed module has a dependent in the graph (a missing key
    reads as the empty set), the affected set is the changed set itself. *)
Theorem no_dependents_no_growth (g : Graph) (changed : gset string) (k : nat) :
  (∀ c, c ∈ changed → dependents g c = []) →
  resolve_modules (enough_fuel g changed + k) g changed = Some changed.
Proof.
  intros Hnone.
  destruct (resolve_modules_returns g changed k) as (r & -> & Hsub & Hreach).
  f_equal. apply set_eq. intros x. split; [|apply Hsub].
  intros Hx. apply Hreach in Hx.
  induction Hx as [x Hx|x d _ IH Hd]; [done|].
  rewrite (Hnone x IH) in Hd. by apply elem_of_nil in Hd.
Qed.

Lemma no_dependents_witness :
  resolve_modules (enough_fuel ∅ {[ "a" ]} + 0) ∅ {[ "a" ]} = Some {[ "a" ]}.
Proof.
  apply (no_dependents_no_growth ∅ {[ "a" ]} 0).
  intros c _. unfold dependents. rewrite lookup_empty. simpl.
  apply elements_empty.
Defined.

(** Resolving a union of changed sets gives the union of the affected sets,
    and resolving an affected set again gives it back. *)
Theorem resolve_union_and_again (g : Graph) (c1 c2 : gset string) (k : nat) :
  ∃ r1 r2,
    resolve_modules (enough_fuel g c1 + k) g c1 = Some r1
    ∧ resolve_modules (enough_fuel g c2 + k) g c2 = Some r2
    ∧ resolve_modules (enough_fuel g (c1 ∪ c2) + k) g (c1 ∪ c2)
      = Some (r1 ∪ r2)
    ∧ resolve_modules (enough_fuel g r1 + k) g r1 = Some r1.
Proof.
  destruct (resolve_modules_returns g c1 k) as (r1 & H1 & _ & Hr1).
  destruct (resolve_modules_returns g c2 k) as (r2 & H2 & _ & Hr2).
  destruct (resolve_modules_returns g (c1 ∪ c2) k) as (r12 & H12 & _ & Hr12).
  destruct (resolve_modules_returns g r1 k) as (rr & Hrr & Hsub & Hrr').
  exists r1, r2. split_and!; [done|done| |].
  - rewrite H12. f_equal. apply set_eq. intros x.
    rewrite Hr12, reach_union, elem_of_union, Hr1, Hr2. done.
  - rewrite Hrr. f_equal. apply set_eq. intros x. split; [|apply Hsub].
    intros Hx. apply Hrr' in Hx. by eapply reach_closed.
Qed.

Lemma importers_witness :
  let g := (build_dependency_graph "/" Sample.read_text Sample.find_imports
              Sample.chain).1 in
  ∃ r, resolve_modules (enough_fuel g {[ "a" ]} + 0) g {[ "a" ]} = Some r
       ∧ "b" ∈ r.
Proof.
  destruct (importers_of_affected_are_affected "/" Sample.read_text
              Sample.find_imports Sample.chain "b.py" "from a import x"
              "from a import x" "a" {[ "a" ]} 0)
    as (r & Hr & Hin & _).
  - reflexivity.
  - reflexivity.
  - reflexivity.
  - apply list_elem_of_In. simpl. by left.
  - exists r. split; [exact Hr|]. apply Hin. by apply elem_of_singleton.
Defined.

(** *** [regenerate_docs] *)

Section RegenerateFacts.

Variable first_existing : string → option string.

Lemma fold_regenerate_list l acc :
  (fold_left (regenerate_one first_existing) l acc).1
  = acc.1 ++ filter (fun m => is_Some (first_existing m)) l.
Proof.
  revert acc. induction l as [|m l IH]; intros acc; simpl.
  - by rewrite app_nil_r.
  - rewrite IH. unfold regenerate_one.
    destruct (first_existing m) as [candidate|] eqn:Hm; simpl.
    + rewrite filter_cons_True by (by rewrite Hm). by rewrite <- app_assoc.
    + rewrite filter_cons_False; [done|]. rewrite Hm. by intros [? ?].
Qed.

Lemma fold_regenerate_written l acc m candidate :
  (∀ m1 m2, m1 ∈ l → m2 ∈ l → out_name m1 = out_name m2 → m1 = m2) →
  m ∈ l → first_existing m = Some candidate →
  (fold_left (regenerate_one first_existing) l acc).2 !! out_name m
  = Some (m, candidate).
Proof.
  induction l as [|x l IH] using rev_ind; intros Hinj Hin Hm.
  - by apply elem_of_nil in Hin.
  - rewrite fold_left_app. simpl. unfold regenerate_one at 1.
    assert (Hrec : m ∈ l →
      (fold_left (regenerate_one first_existing) l acc).2 !! out_name m
      = Some (m, candidate)).
    { intros Hl. apply IH; [|done..].
      intros m1 m2 H1 H2. apply Hinj; apply elem_of_app; by left. }
    apply elem_of_app in Hin as [Hin|Hin].
    + destruct (first_existing x) as [cx|] eqn:Hx; simpl; [|by apply Hrec].
      destruct (decide (x = m)) as [->|Hne].
      * rewrite lookup_insert_eq. congruence.
      * rewrite lookup_insert_ne; [by apply Hrec|].
        intros Heq. apply Hne, Hinj; [| |done]; apply elem_of_app;
          [right; by apply list_elem_of_singleton|by left].
    + apply list_elem_of_singleton in Hin as ->. rewrite Hm. simpl.
      by rewrite lookup_insert_eq.
Qed.

Lemma fold_regenerate_frame l acc name :
  (∀ m, m ∈ l → is_Some (first_existing m) → out_name m ≠ name) →
  (fold_left (regenerate_one first_existing) l acc).2 !! name = acc.2 !! name.
Proof.
  revert acc. induction l as [|x l IH]; intros acc Hne; simpl; [done|].
  rewrite IH by (intros m Hm; apply Hne; by right).
  unfold regenerate_one. destruct (first_existing x) as [cx|] eqn:Hx; [|done].
  simpl. rewrite lookup_insert_ne; [done|].
  apply Hne; [by left|by rewrite Hx].
Qed.

Lemma strongly_sorted_filter {A} (R : relation A) (P : A → Prop)
    `{∀ x, Decision (P x)} l :
  StronglySorted R l → StronglySorted R (filter P l).
Proof.
  induction 1 as [|x l Hl IH Hall]; [constructor|].
  destruct (decide (P x)).
  - rewrite filter_cons_True by done. constructor; [done|].
    apply Forall_forall. intros y Hy. apply list_elem_of_filter in Hy as [_ Hy].
    by eapply Forall_forall in Hall.
  - by rewrite filter_cons_False.
Qed.

Lemma elem_of_sorted_modules (affected : gset string) m :
  m ∈ sorted_modules affected ↔ m ∈ affected.
Proof.
  unfold sorted_modules. by rewrite merge_sort_Permutation, elem_of_elements.
Qed.

Lemma regenerated_intro
    (affected : gset string) (out : gmap string (string * string)) m :
  m ∈ affected → is_Some (first_existing m) →
  m ∈ (regenerate_docs first_existing affected out).1.
Proof.
  intros Hin Hsome. unfold regenerate_docs. rewrite fold_regenerate_list.
  simpl. apply list_elem_of_filter. split; [done|].
  by apply elem_of_sorted_modules.
Qed.

(** [regenerated] lists the affected modules that have a source file, each
    once, in ascending order. *)
Theorem regenerated_is_sorted_affected_with_source
    (affected : gset string) (out : gmap string (string * string)) :
  StronglySorted String.le (regenerate_docs first_existing affected out).1
  ∧ NoDup (regenerate_docs first_existing affected out).1
  ∧ ∀ m, m ∈ (regenerate_docs first_existing affected out).1
         ↔ m ∈ affected ∧ is_Some (first_existing m).
Proof.
  unfold regenerate_docs. rewrite fold_regenerate_list. simpl. split_and!.
  - apply strongly_sorted_filter. unfold sorted_modules.
    apply StronglySorted_merge_sort; apply _.
  - apply NoDup_filter. unfold sorted_modules.
    rewrite merge_sort_Permutation. apply NoDup_elements.
  - intros m. rewrite list_elem_of_filter, elem_of_sorted_modules. tauto.
Qed.

End RegenerateFacts.

Lemma append_inj_r s1 s2 t :
  String.append s1 t = String.append s2 t → s1 = s2.
Proof.
  revert s2. induction s1 as [|c s1 IH]; intros [|d s2] H; simpl in H.
  - done.
  - apply (f_equal String.length) in H. simpl in H.
    rewrite PyStrFacts.length_append in H. lia.
  - apply (f_equal String.length) in H. simpl in H.
    rewrite PyStrFacts.length_append in H. lia.
  - injection H as -> H. f_equal. by apply IH.
Qed.

Lemma mem_cons c d s :
  PyStr.mem c (String d s) = Ascii.eqb c d || PyStr.mem c s.
Proof. reflexivity. Qed.

(** Replacing [old] by [new] loses nothing on strings that have no [new]. *)
Lemma replace_inj old new s1 s2 :
  PyStr.mem new s1 = false → PyStr.mem new s2 = false →
  PyStr.replace old new s1 = PyStr.replace old new s2 → s1 = s2.
Proof.
  revert s2. induction s1 as [|c s1 IH]; intros [|d s2] H1 H2 H;
    simpl in H; try done.
  rewrite mem_cons in H1, H2.
  apply orb_false_iff in H1 as [Hc H1]. apply orb_false_iff in H2 as [Hd H2].
  apply Ascii.eqb_neq in Hc, Hd.
  injection H as Hhead H. f_equal; [|by apply IH].
  destruct (Ascii.eqb_spec c old) as [->|?], (Ascii.eqb_spec d old) as [->|?];
    congruence.
Qed.

Lemma out_name_inj m1 m2 :
  PyStr.mem "_" m1 = false → PyStr.mem "_" m2 = false →
  out_name m1 = out_name m2 → m1 = m2.
Proof.
  intros H1 H2 H. unfold out_name in H. apply append_inj_r in H.
  by eapply replace_inj.
Qed.

(** When no affected module has an underscore in its id, every regenerated
    module finds its own document under its output name after
    [regenerate_docs], and an output file that is the name of no
    regenerated module is left as it was. *)
Theorem documents_do_not_overwrite_each_other
    (first_existing : string → option string) (affected : gset string)
    (out : gmap string (string * string)) (m candidate : string) :
  (∀ m', m' ∈ affected → PyStr.mem "_" m' = false) →
  m ∈ affected → first_existing m = Some candidate →
  (regenerate_docs first_existing affected out).2 !! out_name m
  = Some (m, candidate)
  ∧ ∀ name,
      (∀ m', m' ∈ (regenerate_docs first_existing affected out).1 →
             out_name m' ≠ name) →
      (regenerate_docs first_existing affected out).2 !! name = out !! name.
Proof.
  intros Hno Hin Hm. split.
  - unfold regenerate_docs. apply fold_regenerate_written; [| |done].
    + intros m1 m2 H1 H2. apply elem_of_sorted_modules in H1, H2.
      apply out_name_inj; by apply Hno.
    + by apply elem_of_sorted_modules.
  - intros name Hname. unfold regenerate_docs.
    apply fold_regenerate_frame. intros m' Hm' Hsome. apply Hname.
    apply regenerated_intro; [|done].
    by apply elem_of_sorted_modules.
Qed.

Lemma documents_witness :
  (regenerate_docs Sample.first_existing {[ "a"; "pkg.util"; "zzz" ]} ∅).2
    !! "pkg_util.md"
  = Some ("pkg.util", "pkg/util.py").
Proof.
  apply (documents_do_not_overwrite_each_other Sample.first_existing
           {[ "a"; "pkg.util"; "zzz" ]} ∅ "pkg.util" "pkg/util.py").
  - intros m' Hm'. rewrite !elem_of_union, !elem_of_singleton in Hm'.
    destruct Hm' as [[->| ->]| ->]; reflexivity.
  - rewrite !elem_of_union, !elem_of_singleton. tauto.
  - reflexivity.
Defined.

End GitDrivenMore.

(** ** More on the full-stack orchestrator *)

Module FullStackMore.
Import FullStack FullStackSite FullStackFacts.

Lemma sum_by_app {A} (f : A → nat) l1 l2 :
  sum_by f (l1 ++ l2) = sum_by f l1 + sum_by f l2.
Proof. induction l1 as [|a l1 IH]; simpl; [done|]. rewrite IH. lia. Qed.

Lemma sum_by_map {A B} (f : B → nat) (g : A → B) l :
  sum_by f (List.map g l) = sum_by (fun a => f (g a)) l.
Proof. induction l as [|a l IH]; simpl; [done|by rewrite IH]. Qed.

Lemma sum_by_plus {A} (f g : A → nat) l :
  sum_by (fun a => f a + g a) l = sum_by f l + sum_by g l.
Proof. induction l as [|a l IH]; simpl; [done|]. rewrite IH. lia. Qed.

Lemma sum_by_elem {A} (f : A → nat) l a :
  a ∈ l → (f a <= sum_by f l)%nat.
Proof.
  induction l as [|b l IH]; intros Hin; simpl.
  - by apply elem_of_nil in Hin.
  - apply elem_of_cons in Hin as [->|Hin]; [lia|]. specialize (IH Hin). lia.
Qed.

Lemma length_flat_map {A B} (f : A → list B) l :
  length (flat_map f l) = sum_by (fun a => length (f a)) l.
Proof.
  induction l as [|a l IH]; simpl; [done|]. by rewrite length_app, IH.
Qed.

Section More.

Variable sep : ascii.
Variable project_dir : string.
Variable config : Config.
Variable md5 : string → string.
Variable analyze : string → string + Items.
Variable count_tests : string → nat.

Local Abbreviation detect := (FullStack.detect sep project_dir config md5).
Local Abbreviation parsed := (FullStack.parsed sep project_dir config analyze).
Local Abbreviation analysed := (FullStack.analysed sep project_dir config analyze).

(** *** The stage records of a run *)

Lemma length_chunks_of f :
  length (chunks_of md5 f)
  = has_module_doc f.2 + length (functions f.2) + length (classes f.2).
Proof.
  unfold chunks_of, has_module_doc. rewrite !length_app, !length_map.
  destruct (nonempty (module_doc f.2)); simpl; lia.
Qed.

Lemma run_stage_records tree st :
  cache_file st ≠ Some Unparsable →
  let d := detect tree (old_cache st) in
  let a := analysed tree (or_none d.2) in
  let values := List.map snd (map_to_list a.1) in
  ∃ l st' living_record,
    run sep project_dir config md5 analyze count_tests tree st = Returned l st'
    ∧ changed l = d.2 ∧ analysis l = a.1
    ∧ stage_name living_record = "living_docs"
    ∧ report_stages st'
      = report_stages st
        ++ [ {| stage_name := "change_detection";
                counters := [("changed_files", length d.2);
                             ("total_files", size d.1)] |};
             {| stage_name := "code_analysis";
                counters :=
                  [("analyzed_files", size a.1);
                   ("total_functions",
                    sum_by (fun i => length (functions i)) values);
                   ("total_classes",
                    sum_by (fun i => length (classes i)) values)] |};
             {| stage_name := "rag_indexing";
                counters :=
                  [("total_chunks",
                    length (flat_map (chunks_of md5) (map_to_list a.1)))] |};
             living_record;
             {| stage_name := "site_generation";
                counters := [("pages", 1 + length (module_pages sep a.1))] |} ]
    ∧ report_file st'
      = Some {| rep_stages := report_stages st';
                rep_errors := report_errors st';
                rep_stats :=
                  [("files_analyzed", size a.1);
                   ("search_chunks",
                    length (flat_map (chunks_of md5) (map_to_list a.1)));
                   ("pages_generated", 1 + length (module_pages sep a.1));
                   ("errors", length (report_errors st'))] |}.
Proof.
  intros Hc d a values. unfold run, bind.
  rewrite stage_change_detection_returns by done.
  unfold stage_code_analysis, stage_rag_indexing, stage_living_docs,
    stage_site_generation, write_report, bind, modify, ret, get.
  eexists _, _, {| stage_name := "living_docs"; counters := _ |}.
  split; [reflexivity|]. simpl.
  split; [reflexivity|]. split; [reflexivity|]. split; [reflexivity|].
  split; [|reflexivity].
  rewrite <- !app_assoc. reflexivity.
Qed.

(** In the report of a run that ends, the five stage records come in the
    order of the stages, and their counters agree: the chunk count is the
    function count plus the class count plus the number of analysed files
    with a module docstring, the page count is the analysed-file count plus
    one, and the changed-file count is the length of the changed list. *)
Theorem stage_counters_agree (tree : Tree) (st : State) :
  cache_file st ≠ Some Unparsable →
  ∃ l st' cd ca ri ld sg n_files n_funcs n_classes n_chunks n_pages,
    run sep project_dir config md5 analyze count_tests tree st = Returned l st'
    ∧ report_stages st' = report_stages st ++ [cd; ca; ri; ld; sg]
    ∧ List.map stage_name [cd; ca; ri; ld; sg]
      = ["change_detection"; "code_analysis"; "rag_indexing"; "living_docs";
         "site_generation"]
    ∧ counter "changed_files" cd = Some (length (changed l))
    ∧ counter "analyzed_files" ca = Some n_files
    ∧ counter "total_functions" ca = Some n_funcs
    ∧ counter "total_classes" ca = Some n_classes
    ∧ counter "total_chunks" ri = Some n_chunks
    ∧ counter "pages" sg = Some n_pages
    ∧ n_files = size (analysis l)
    ∧ n_chunks
      = n_funcs + n_classes
        + sum_by has_module_doc (List.map snd (map_to_list (analysis l)))
    ∧ n_pages = n_files + 1.
Proof.
  intros Hc.
  destruct (run_stage_records tree st Hc)
    as (l & st' & ld & Hrun & Hch & Han & Hname & Hstages & _).
  do 7 eexists. do 5 eexists.
  split; [exact Hrun|]. split; [exact Hstages|].
  split; [simpl; by rewrite Hname|].
  split; [simpl; by rewrite Hch|].
  do 5 (split; [reflexivity|]).
  cbn [snd]. rewrite Han. split_and!.
  - done.
  - rewrite length_flat_map, !sum_by_map. clear.
    induction (map_to_list _) as [|f fs IH]; simpl; [done|].
    rewrite length_chunks_of, IH. lia.
  - unfold module_pages. rewrite length_map, length_map_to_list. lia.
Qed.


(** *** Chunk ids *)

Lemma NoDup_map_compose {A B C} (f : A → B) (g : B → C) l :
  List.NoDup (List.map (fun a => g (f a)) l) → List.NoDup (List.map f l).
Proof.
  induction l as [|a l IH]; simpl; intros H; [constructor|].
  apply NoDup_cons_iff in H as [Hnot Hnd]. constructor; [|by apply IH].
  intros Hin. apply Hnot. apply in_map_iff in Hin as (a' & Heq & Hin).
  apply in_map_iff. exists a'. split; [by rewrite Heq|done].
Qed.

Lemma chunk_ids filepath items :
  List.map chunk_id (chunks_of md5 (filepath, items))
  = (if nonempty (module_doc items)
     then [md5 (String.append filepath ":module")] else [])
    ++ List.map
         (fun fn => md5 (String.append filepath
                           (String.append ":" (func_name fn))))
         (functions items)
    ++ List.map
         (fun c => md5 (String.append filepath
                          (String.append ":" (class_name c))))
         (classes items).
Proof.
  unfold chunks_of. simpl. rewrite !List.map_app, !List.map_map.
  by destruct (nonempty (module_doc items)).
Qed.

(** The id of a chunk is the digest of the file path and the name alone.
    So the chunk ids of a file are pairwise distinct only if its functions
    (methods included) have pairwise distinct names, its classes too, no
    function has the name of a class, and, when the file has a module
    docstring, no function is called [module]. *)
Theorem distinct_chunk_ids_need_distinct_names (filepath : string)
    (items : Items) :
  List.NoDup (List.map chunk_id (chunks_of md5 (filepath, items))) →
  List.NoDup (List.map func_name (functions items))
  ∧ List.NoDup (List.map class_name (classes items))
  ∧ (∀ fn c, In fn (functions items) → In c (classes items) →
             func_name fn ≠ class_name c)
  ∧ (nonempty (module_doc items) = true →
     ∀ fn, In fn (functions items) → func_name fn ≠ "module").
Proof.
  rewrite chunk_ids. intros Hnd.
  assert (Hrest : List.NoDup
    (List.map (fun fn => md5 (String.append filepath
                                (String.append ":" (func_name fn))))
       (functions items)
     ++ List.map (fun c => md5 (String.append filepath
                                  (String.append ":" (class_name c))))
          (classes items))).
  { destruct (nonempty (module_doc items)); simpl in Hnd; [|done].
    by apply NoDup_cons_iff in Hnd as [_ ?]. }
  split_and!.
  - apply NoDup_app_remove_r in Hrest.
    by apply (NoDup_map_compose func_name
                (fun n => md5 (String.append filepath (String.append ":" n)))).
  - apply NoDup_app_remove_l in Hrest.
    by apply (NoDup_map_compose class_name
                (fun n => md5 (String.append filepath (String.append ":" n)))).
  - intros fn c Hfn Hc Heq.
    apply base.NoDup_ListNoDup, NoDup_app in Hrest as (_ & Hdisj & _).
    apply (Hdisj (md5 (String.append filepath
                         (String.append ":" (func_name fn))))).
    + apply list_elem_of_In, in_map_iff. by exists fn.
    + rewrite Heq. apply list_elem_of_In, in_map_iff. by exists c.
  - intros Hdoc fn Hfn Heq. rewrite Hdoc in Hnd. simpl in Hnd.
    apply NoDup_cons_iff in Hnd as [Hnot _]. apply Hnot.
    apply in_or_app. left. apply in_map_iff. exists fn. split; [|done].
    by rewrite Heq.
Qed.

(** *** Living docs *)

Lemma fold_left_count (skip : string * string → bool) l n :
  fold_left (fun n tf => if skip tf then n else n + count_tests tf.2) l n
  = n + sum_by (fun tf => if skip tf then 0 else count_tests tf.2) l.
Proof.
  revert n. induction l as [|tf l IH]; intros n; simpl; [lia|].
  rewrite IH. destruct (skip tf); lia.
Qed.

(** A test file whose name matches both [test_*.py] and [*_test.py] is read
    twice: its tests enter the count of [stage_living_docs] two times. *)
Theorem test_file_matching_both_patterns_counts_twice (tree : Tree)
    (st : State) (rel source : string) :
  tree !! rel = Some source →
  String.prefix "test_" (basename sep rel) = true →
  PyStr.endswith (basename sep rel) "_test.py" = true →
  _should_skip config (abspath sep project_dir rel) = false →
  ∃ docs st',
    stage_living_docs sep project_dir config count_tests tree st
    = Returned docs st'
    ∧ (2 * count_tests source <= tests docs)%nat.
Proof.
  intros Hl Hpre Hsuf Hskip.
  unfold stage_living_docs, bind, modify, ret.
  eexists _, _. split; [reflexivity|]. simpl.
  rewrite (fold_left_count
             (fun tf => _should_skip config (abspath sep project_dir tf.1))).
  rewrite sum_by_app. simpl.
  assert (Hin : (rel, source) ∈ map_to_list tree)
    by (by apply elem_of_map_to_list).
  assert (H1 : (rel, source) ∈ rglob_name sep tree "test_" ".py").
  { unfold rglob_name. apply list_elem_of_In, filter_In.
    split; [by apply list_elem_of_In|]. cbn [fst].
    apply PyStrFacts.endswith_spec in Hsuf as Hsuf'. destruct Hsuf' as [pre Hname].
    apply andb_true_iff. split; [apply andb_true_iff; split; [done|]|].
    - apply PyStrFacts.endswith_spec.
      exists (String.append pre "_test"). rewrite Hname.
      by rewrite PyStrFacts.append_assoc.
    - apply Nat.leb_le. rewrite Hname, PyStrFacts.length_append.
      change (String.length "test_" + String.length ".py") with 8.
      change (String.length "_test.py") with 8. lia. }
  assert (H2 : (rel, source) ∈ rglob sep tree "_test.py").
  { unfold rglob. apply list_elem_of_In, filter_In.
    split; [by apply list_elem_of_In|done]. }
  pose proof (sum_by_elem
    (fun tf : string * string =>
       if _should_skip config (abspath sep project_dir tf.1) then 0
       else count_tests tf.2) _ _ H1) as Hle1.
  pose proof (sum_by_elem
    (fun tf : string * string =>
       if _should_skip config (abspath sep project_dir tf.1) then 0
       else count_tests tf.2) _ _ H2) as Hle2.
  simpl in Hle1, Hle2. rewrite Hskip in Hle1, Hle2. lia.
Qed.

(** *** A pattern that occurs in the path of the project itself *)

Lemma skip_below_project p rel :
  p ∈ ignore_patterns config → PyStr.contains project_dir p = true →
  _should_skip config (abspath sep project_dir rel) = true.
Proof.
  intros Hp Hc. apply should_skip_spec. exists p. split; [done|].
  apply PyStrFacts.contains_spec in Hc as (pre & post & Hdir).
  exists pre, (String.append post (String sep rel)).
  unfold abspath. rewrite Hdir at 1.
  by rewrite !PyStrFacts.append_assoc.
Qed.

Lemma flat_map_nil {A B} (f : A → list B) l :
  (∀ a, a ∈ l → f a = []) → flat_map f l = [].
Proof.
  induction l as [|a l IH]; intros H; simpl; [done|].
  rewrite (H a) by (by left). apply IH. intros b Hb. apply H. by right.
Qed.

Lemma fold_analyze_skipped tree files acc :
  (∀ rel, _should_skip config (abspath sep project_dir rel) = true) →
  fold_left (analyze_file sep project_dir config analyze tree) files acc = acc.
Proof.
  intros Hskip. revert acc. induction files as [|f files IH]; intros acc;
    simpl; [done|].
  rewrite IH. unfold analyze_file. destruct (tree !! f); [|done].
  by rewrite Hskip.
Qed.

(** [_should_skip] tests the absolute path, so a pattern that occurs in
    the path of the project directory itself (or the empty pattern)
    excludes every file: nothing is enumerated, nothing is analysed, and a
    run ends with an empty changed list, an empty analysis and the index
    page alone. *)
Theorem pattern_in_project_path_skips_everything (tree : Tree) (st : State)
    (p : string) :
  p ∈ ignore_patterns config → PyStr.contains project_dir p = true →
  enumerate sep project_dir config tree = []
  ∧ (∀ files, analysed tree files = (∅, []))
  ∧ match run sep project_dir config md5 analyze count_tests tree st with
    | Returned l _ => changed l = [] ∧ analysis l = ∅ ∧ pages l = 1
    | Raised _ _ => cache_file st = Some Unparsable
    end.
Proof.
  intros Hp Hc.
  assert (Hskip : ∀ rel,
            _should_skip config (abspath sep project_dir rel) = true)
    by (intros rel; by eapply skip_below_project).
  assert (Henum : enumerate sep project_dir config tree = []).
  { unfold enumerate. apply flat_map_nil. intros ext _.
    apply filter_none. intros f _. by rewrite Hskip. }
  assert (Han : ∀ files, analysed tree files = (∅, [])).
  { intros files. unfold FullStack.analysed. by apply fold_analyze_skipped. }
  split_and!; [done|done|].
  destruct (decide (cache_file st = Some Unparsable)) as [Hcf|Hcf].
  - by rewrite run_raises.
  - destruct (run_returns sep project_dir config md5 analyze count_tests
                tree st Hcf) as (l & st' & -> & Hch & Ha & Hpg & _).
    unfold FullStack.detect in Hch, Ha, Hpg. rewrite Henum in Hch, Ha, Hpg.
    simpl in Hch, Ha, Hpg. rewrite Han in Ha, Hpg. by simpl in Ha, Hpg.
Qed.

(** *** Extensions that do not end in one another *)









(** *** What a run with a non-empty changed list puts on the site *)

Lemma elem_of_index_links (a : gmap string Items) rel :
  rel ∈ index_links a ↔ is_Some (a !! rel).
Proof.
  unfold index_links. rewrite merge_sort_Permutation.
  rewrite list_elem_of_In, in_map_iff. split.
  - intros ([rel' items] & Heq & Hin). simpl in Heq. subst rel'.
    apply list_elem_of_In, elem_of_map_to_list in Hin. by exists items.
  - intros [items Hl]. exists (rel, items). split; [done|].
    by apply list_elem_of_In, elem_of_map_to_list.
Qed.

Lemma elem_of_changed tree st rel :
  rel ∈ (detect tree (old_cache st)).2 →
  ∃ content, tree !! rel = Some content
             ∧ _should_skip config (abspath sep project_dir rel) = false.
Proof.
  unfold FullStack.detect. rewrite fold_scan_changed. simpl.
  rewrite list_elem_of_In, in_map_iff.
  intros ([rel' content] & Heq & Hin). simpl in Heq. subst rel'.
  apply filter_In in Hin as [Hin _].
  apply list_elem_of_In, elem_of_enumerate in Hin as (Hl & _ & Hskip).
  by exists content.
Qed.

(** When files have changed but none of them ends in [.py], the run
    analyses nothing and still rewrites the site index: the analysis is
    empty, one page is generated and the index links no module. *)
Theorem non_python_change_empties_index (tree : Tree) (st : State) :
  cache_file st ≠ Some Unparsable →
  (detect tree (old_cache st)).2 ≠ [] →
  (∀ f, f ∈ (detect tree (old_cache st)).2 → PyStr.endswith f ".py" = false) →
  ∃ l st',
    run sep project_dir config md5 analyze count_tests tree st = Returned l st'
    ∧ changed l ≠ []
    ∧ analysis l = ∅
    ∧ pages l = 1
    ∧ index_links (analysis l) = []
    ∧ "index.html" ∈ site st'.
Proof.
  intros Hc Hne Hnopy.
  destruct (run_returns sep project_dir config md5 analyze count_tests
              tree st Hc)
    as (l & st' & Hrun & Hch & Han & Hpg & _ & _ & Hsite & _).
  assert (Hempty : analysed tree (or_none (detect tree (old_cache st)).2)
                   = (∅, [])).
  { destruct ((detect tree (old_cache st)).2) as [|f fs] eqn:Hd; [done|].
    unfold FullStack.analysed, py_files, or_none.
    rewrite filter_none; [done|]. intros x Hx. by apply Hnopy. }
  rewrite Hempty in Han, Hpg, Hsite. simpl in Han, Hpg, Hsite.
  exists l, st'. split_and!; try done.
  - by rewrite Hch.
  - by rewrite Han.
  - rewrite Hsite. set_solver.
Qed.

(** In a run with a non-empty changed list the site index, which is
    rewritten, links exactly the changed files that end in [.py] and parse,
    in ascending order; a module that did not change is not linked. *)
Theorem index_links_only_changed_modules (tree : Tree) (st : State) :
  cache_file st ≠ Some Unparsable →
  (detect tree (old_cache st)).2 ≠ [] →
  ∃ l st',
    run sep project_dir config md5 analyze count_tests tree st = Returned l st'
    ∧ StronglySorted String.le (index_links (analysis l))
    ∧ ∀ rel, rel ∈ index_links (analysis l)
             ↔ rel ∈ changed l
               ∧ PyStr.endswith rel ".py" = true
               ∧ ∃ source items, tree !! rel = Some source
                                 ∧ analyze source = inr items.
Proof.
  intros Hc Hne.
  destruct (run_returns sep project_dir config md5 analyze count_tests
              tree st Hc)
    as (l & st' & Hrun & Hch & Han & _).
  exists l, st'. split; [done|]. split.
  { unfold index_links. apply StronglySorted_merge_sort; apply _. }
  intros rel. rewrite elem_of_index_links, Han, Hch, analysed_lookup.
  destruct ((detect tree (old_cache st)).2) as [|f fs] eqn:Hd; [done|].
  unfold or_none, py_files.
  assert (Hmem : rel ∈ List.filter (fun f => PyStr.endswith f ".py") (f :: fs)
                 ↔ rel ∈ f :: fs ∧ PyStr.endswith rel ".py" = true).
  { by rewrite list_elem_of_In, filter_In, <- list_elem_of_In. }
  case_decide as Hin.
  - apply Hmem in Hin as [Hin Hpy]. unfold FullStack.parsed. split.
    + intros [items Hp]. split_and!; [done..|].
      destruct (tree !! rel) as [source|]; [|done].
      destruct (_should_skip _ _); [done|].
      destruct (analyze source) as [e|items'] eqn:Ha; [done|].
      by exists source, items'.
    + intros (_ & _ & source & items & Hl & Ha).
      assert (Hch' : rel ∈ (detect tree (old_cache st)).2) by (by rewrite Hd).
      apply elem_of_changed in Hch' as (content & Hl' & Hskip).
      rewrite Hl, Hskip, Ha. by exists items.
  - split; [by intros [? ?]|]. intros (H1 & H2 & _). destruct Hin.
    by apply Hmem.
Qed.

End More.

(** *** The theorems above at concrete inputs *)

Lemma stage_counters_witness :
  ∃ l st', Demo.run Demo.three_files fresh = Returned l st'
           ∧ List.map stage_name (report_stages st')
             = ["change_detection"; "code_analysis"; "rag_indexing";
                "living_docs"; "site_generation"].
Proof.
  destruct (stage_counters_agree "/" "/srv/app" DEFAULT_CONFIG Demo.digest
              Demo.parser Demo.no_tests Demo.three_files fresh)
    as (l & st' & cd & ca & ri & ld & sg & _ & _ & _ & _ & _
        & Hrun & Hstages & Hnames & _); [discriminate|].
  exists l, st'. split; [exact Hrun|]. rewrite Hstages. exact Hnames.
Defined.

Lemma chunk_ids_witness :
  List.NoDup (List.map func_name (functions Sample.documented)).
Proof.
  apply (distinct_chunk_ids_need_distinct_names Demo.digest "tools.py"
           Sample.documented).
  apply base.NoDup_ListNoDup. vm_compute.
  repeat (apply NoDup_cons; split;
          [rewrite ?elem_of_cons; rewrite ?elem_of_nil; intuition discriminate|]).
  apply NoDup_nil_2.
Defined.

Lemma test_count_witness :
  ∃ docs st',
    stage_living_docs "/" "/srv/app" DEFAULT_CONFIG Sample.one_test
      Sample.both_patterns fresh
    = Returned docs st'
    ∧ (2 <= tests docs)%nat.
Proof.
  apply (test_file_matching_both_patterns_counts_twice "/" "/srv/app"
           DEFAULT_CONFIG Sample.one_test Sample.both_patterns fresh
           "test_io_test.py" "def test_a(): pass"); reflexivity.
Defined.

Lemma pattern_in_project_path_witness :
  enumerate "/" "/home/me/venv-projects/app" DEFAULT_CONFIG Demo.three_files
  = [].
Proof.
  apply (pattern_in_project_path_skips_everything "/"
           "/home/me/venv-projects/app" DEFAULT_CONFIG Demo.digest Demo.parser
           Demo.no_tests Demo.three_files fresh "venv").
  - apply list_elem_of_In. simpl. tauto.
  - reflexivity.
Defined.


Lemma non_python_change_witness :
  ∃ l st', Demo.run Demo.docs_only fresh = Returned l st'
           ∧ analysis l = ∅ ∧ pages l = 1.
Proof.
  destruct (non_python_change_empties_index "/" "/srv/app" DEFAULT_CONFIG
              Demo.digest Demo.parser Demo.no_tests Demo.docs_only fresh)
    as (l & st' & Hrun & _ & Han & Hpg & _).
  - discriminate.
  - vm_compute. discriminate.
  - intros f Hf. apply list_elem_of_In in Hf. vm_compute in Hf.
    destruct Hf as [<-|[]]. reflexivity.
  - exists l, st'. split_and!; [exact Hrun|exact Han|exact Hpg].
Defined.

Lemma index_links_witness :
  ∃ l st', Demo.run Demo.three_files fresh = Returned l st'
           ∧ ("good.py" ∈ index_links (analysis l))
           ∧ ("bad.py" ∉ index_links (analysis l)).
Proof.
  destruct (index_links_only_changed_modules "/" "/srv/app" DEFAULT_CONFIG
              Demo.digest Demo.parser Demo.no_tests Demo.three_files fresh)
    as (l & st' & Hrun & _ & Hlinks).
  - discriminate.
  - vm_compute. discriminate.
  - exists l, st'. split; [exact Hrun|]. split.
    + apply Hlinks. split_and!.
      * assert (Hch : match returned (Demo.run Demo.three_files fresh) with
                      | Some l0 => bool_decide ("good.py" ∈ changed l0)
                      | None => false
                      end = true)
          by (vm_compute; reflexivity).
        unfold Demo.run in Hch. rewrite Hrun in Hch.
        by apply bool_decide_eq_true in Hch.
      * reflexivity.
      * exists "x = 1", Demo.no_items. split; reflexivity.
    + intros Hin. apply Hlinks in Hin as (_ & _ & source & items & Hl & Ha).
      vm_compute in Hl. injection Hl as <-. vm_compute in Ha. discriminate.
Defined.

End FullStackMore.
